(** * bmail.text_mailer: a shallow embedding of [TextMailer]

    The development follows [src/bmail/text_mailer.py]: the string
    operations the mailer relies on ([str.split], [str.strip],
    [str.lower]), the part of [email.message.Message] it touches, the
    template interface, and the three methods [render], [message] and
    [send].  SMTP traffic and logging are effects: every call is recorded
    in a trace, and the outcome of each SMTP call is decided by an oracle
    standing for the client library and the server behind it. *)

From Stdlib Require Import String Ascii List Bool NArith ZArith.
Import ListNotations.
Local Open Scope string_scope.

(** ** Python text

    A Python [str] is a Rocq [string]: one character per code point, for
    the code points below 256. *)
Module Py.

(** [c.isspace()] on the code points below 256: TAB..CR, FS..US, SPACE,
    NEL and NBSP. *)
Definition is_space (c : ascii) : bool :=
  let n := N_of_ascii c in
  (((9 <=? n) && (n <=? 13)) || ((28 <=? n) && (n <=? 32))
   || (n =? 133) || (n =? 160))%N.

Fixpoint lstrip (s : string) : string :=
  match s with
  | EmptyString => EmptyString
  | String c r => if is_space c then lstrip r else s
  end.

Fixpoint rstrip (s : string) : string :=
  match s with
  | EmptyString => EmptyString
  | String c r =>
      match rstrip r with
      | EmptyString => if is_space c then EmptyString else String c EmptyString
      | r' => String c r'
      end
  end.

(** [s.strip()] *)
Definition strip (s : string) : string := rstrip (lstrip s).

(** [s.split(sep)] for a one-character separator: never the empty list;
    [''.split(',') == ['']]. *)
Fixpoint split (sep : ascii) (s : string) : list string :=
  match s with
  | EmptyString => [EmptyString]
  | String c r =>
      if Ascii.eqb c sep then EmptyString :: split sep r
      else match split sep r with
           | t :: ts => String c t :: ts
           | [] => [String c EmptyString]
           end
  end.

(** [sep.join(l)] *)
Fixpoint join (sep : ascii) (l : list string) : string :=
  match l with
  | [] => EmptyString
  | [t] => t
  | t :: ts => t ++ String sep (join sep ts)
  end.

Definition lower_char (c : ascii) : ascii :=
  let n := N_of_ascii c in
  if (((65 <=? n) && (n <=? 90))
      || ((192 <=? n) && (n <=? 222) && negb (n =? 215)))%N
  then ascii_of_N (n + 32) else c.

(** [s.lower()] *)
Fixpoint lower (s : string) : string :=
  match s with
  | EmptyString => EmptyString
  | String c r => String (lower_char c) (lower r)
  end.

Definition is_empty (s : string) : bool :=
  match s with EmptyString => true | _ => false end.

(** Truthiness of a value that is [None] or a [str]. *)
Definition truthy (v : option string) : bool :=
  match v with
  | Some (String _ _) => true
  | _ => false
  end.

(** [a or b] *)
Definition or_ (a b : option string) : option string :=
  if truthy a then a else b.

(** [a == 'lit'] where [a] is [None] or a [str]. *)
Definition eq_str (a : option string) (lit : string) : bool :=
  match a with
  | Some s => String.eqb s lit
  | None => false
  end.

(** [a or 'lit']: always a [str]. *)
Definition or_str (a : option string) (lit : string) : string :=
  match a with
  | Some (String c r) => String c r
  | _ => lit
  end.

Definition comma : ascii := ","%char.

End Py.

(** ** Exceptions and values *)

(** A raised Python exception: its class and its message. *)
Record exn := mkExn { exn_class : string; exn_message : string }.

Definition AttributeError (msg : string) : exn := mkExn "AttributeError" msg.

(** The result of evaluating a Python expression: it raises or it
    returns. *)
Inductive outcome (A : Type) : Type :=
| Raise (e : exn)
| Return (a : A).
Arguments Raise {A} e.
Arguments Return {A} a.

Definition obind {A B} (o : outcome A) (f : A -> outcome B) : outcome B :=
  match o with
  | Raise e => Raise e
  | Return a => f a
  end.

(** The Python values that flow through the mailer. *)
Inductive value :=
| VNone
| VStr (s : string)
| VBytes (b : list Byte.byte)
| VInt (z : Z)
| VExc (e : exn).

Definition of_opt (v : option string) : value :=
  match v with
  | Some s => VStr s
  | None => VNone
  end.

(** ** The part of [email.message.Message] the mailer uses

    Under the default (compat32) policy a message keeps its headers as a
    list of name/value pairs in insertion order; a value is stored as it
    is given, [None] included. *)
Module Email.

Record Message := mkMessage {
  headers : list (string * option string);
  payload : string
}.

Definition same_name (name : string) (kv : string * option string) : bool :=
  String.eqb (Py.lower (fst kv)) (Py.lower name).

(** [msg[name] = val]: appends, never replaces. *)
Definition setitem (msg : Message) (name : string) (val : option string) : Message :=
  mkMessage (headers msg ++ [(name, val)])%list (payload msg).

(** [msg.add_header(name, val)] with no extra parameters. *)
Definition add_header (msg : Message) (name : string) (val : string) : Message :=
  setitem msg name (Some val).

(** [msg[name]]: the first header of that name, [None] when there is
    none. *)
Definition getitem (msg : Message) (name : string) : option string :=
  match find (same_name name) (headers msg) with
  | Some kv => snd kv
  | None => None
  end.

(** The values of all headers of that name, in order. *)
Definition values (msg : Message) (name : string) : list (option string) :=
  map snd (filter (same_name name) (headers msg)).

(** [msg.get_all(name)]: [None] when there is no such header. *)
Definition get_all (msg : Message) (name : string) : option (list (option string)) :=
  match values msg name with
  | [] => None
  | l => Some l
  end.

(** [x or []] for the result of [get_all]. *)
Definition or_nil {A} (x : option (list A)) : list A :=
  match x with
  | Some (a :: l) => a :: l
  | _ => []
  end.

Fixpoint is_ascii (s : string) : bool :=
  match s with
  | EmptyString => true
  | String c r => (N_of_ascii c <? 128)%N && is_ascii r
  end.

Definition dquote : string := String (ascii_of_nat 34) EmptyString.

Definition newline : string := String (ascii_of_nat 10) EmptyString.

(** [text.encode('utf-8')], for the code points below 256. *)
Fixpoint utf8 (s : string) : list N :=
  match s with
  | EmptyString => []
  | String c r =>
      let n := N_of_ascii c in
      if (n <? 128)%N then n :: utf8 r
      else (192 + n / 64)%N :: (128 + n mod 64)%N :: utf8 r
  end.

(** The base64 alphabet. *)
Definition b64_char (n : N) : ascii :=
  if (n <? 26)%N then ascii_of_N (65 + n)
  else if (n <? 52)%N then ascii_of_N (97 + (n - 26))
  else if (n <? 62)%N then ascii_of_N (48 + (n - 52))
  else if (n =? 62)%N then "+"%char
  else "/"%char.

(** [email.base64mime.body_encode]: base64 in lines of 76 characters (57
    bytes, 19 groups of three), every line ended by a newline; [k] counts
    the groups already on the current line. *)
Fixpoint body_encode_from (k : nat) (bs : list N) : string :=
  match bs with
  | [] => match k with O => EmptyString | S _ => newline end
  | [a] =>
      String (b64_char (a / 4))
        (String (b64_char ((a mod 4) * 16)) ("==" ++ newline))
  | [a; b] =>
      String (b64_char (a / 4))
        (String (b64_char ((a mod 4) * 16 + b / 16))
           (String (b64_char ((b mod 16) * 4)) ("=" ++ newline)))
  | a :: b :: c :: r =>
      String (b64_char (a / 4))
        (String (b64_char ((a mod 4) * 16 + b / 16))
           (String (b64_char ((b mod 16) * 4 + c / 64))
              (String (b64_char (c mod 64))
                 (if Nat.eqb (S k) 19 then newline ++ body_encode_from 0 r
                  else body_encode_from (S k) r))))
  end%N.

Definition body_encode (bs : list N) : string := body_encode_from 0 bs.

(** [MIMEText(text)] for a [str]: the three MIME headers, the charset
    being us-ascii when the text encodes in it and utf-8 otherwise.  The
    payload is the text itself in the first case and the base64 encoding
    of its UTF-8 bytes in the second. *)
Definition MIMEText_str (text : string) : Message :=
  let charset := if is_ascii text then "us-ascii" else "utf-8" in
  let cte := if is_ascii text then "7bit" else "base64" in
  mkMessage
    [("Content-Type", Some ("text/plain; charset=" ++ dquote ++ charset ++ dquote));
     ("MIME-Version", Some "1.0");
     ("Content-Transfer-Encoding", Some cte)]
    (if is_ascii text then text else body_encode (utf8 text)).

Definition type_name (v : value) : string :=
  match v with
  | VNone => "NoneType"
  | VStr _ => "str"
  | VBytes _ => "bytes"
  | VInt _ => "int"
  | VExc e => exn_class e
  end.

(** [MIMEText(text)]: the constructor calls [text.encode], which only a
    [str] has. *)
Definition MIMEText (text : value) : outcome Message :=
  match text with
  | VStr s => Return (MIMEText_str s)
  | v => Raise (AttributeError ("'" ++ type_name v ++ "' object has no attribute 'encode'"))
  end.

End Email.
Export Email(Message).

(** ** Templates and loaders *)

Definition context := list (string * value).

(** A template object, seen through the two methods the mailer calls.  An
    object without one of them is a template whose method raises
    [AttributeError]. *)
Module Template.
Record t := mk {
  render : context -> outcome value;
  generate : context -> outcome value
}.

(** A [str] used where a template object is expected. *)
Definition of_str (_ : string) : t :=
  mk (fun _ => Raise (AttributeError "'str' object has no attribute 'render'"))
     (fun _ => Raise (AttributeError "'str' object has no attribute 'generate'")).
End Template.

(** The [template] argument: a [str] or an object. *)
Inductive template_arg :=
| TName (name : string)
| TObject (tpl : Template.t).

(** [loader.load(name)] *)
Definition Loader := string -> outcome Template.t.

(** ** Effects: SMTP calls, log lines and the trace *)

Inductive smtp_call :=
| SMTP (host : string) (port : option Z)
| set_debuglevel (level : Z)
| login (user password : string)
| sendmail (from_addr : option string) (to_addr : option string) (body : string)
| quit.

Inductive log_arg :=
| LStr (s : string)
| LVal (v : option string)
| LExc (e : exn)
| LTraceback (e : exn).

Inductive stream := stderr.

(** What a run leaves behind: each SMTP call with the exception it raised,
    if any, and each line the logger wrote, with the [file=] argument of
    the call. *)
Inductive event :=
| Smtp (c : smtp_call) (raised : option exn)
| Log (file : option stream) (args : list log_arg).

(** The SMTP client and the server behind it: given what happened so far,
    a call returns or raises. *)
Definition smtp_oracle := list event -> smtp_call -> option exn.

(** A logger, the [log] argument of the constructor, is a callable that
    writes its arguments as a line.  What the mailer depends on is whether
    it takes the [file=] keyword: [file_keyword] is [None] when it does,
    and the exception the call raises when it does not.  The default,
    [bl.log.Log()], does not take it: the call raises a [TypeError]. *)
Record Logger := mkLogger { file_keyword : option exn }.

(** Effectful computations read the history and return a result together
    with the events they add to it. *)
Definition M (A : Type) : Type := list event -> outcome A * list event.

Definition ret {A} (a : A) : M A := fun _ => (Return a, []).

Definition bind {A B} (m : M A) (f : A -> M B) : M B :=
  fun h =>
    match m h with
    | (Raise e, t) => (Raise e, t)
    | (Return a, t) => let (r, t') := f a (h ++ t)%list in (r, (t ++ t')%list)
    end.

Definition lift {A} (o : outcome A) : M A := fun _ => (o, []).

(** [try: m  except: handler] with a bare [except]. *)
Definition try_except {A} (m : M A) (handler : exn -> M A) : M A :=
  fun h =>
    match m h with
    | (Raise e, t) => let (r, t') := handler e (h ++ t)%list in (r, (t ++ t')%list)
    | (Return a, t) => (Return a, t)
    end.

Definition emit (ev : event) : M unit := fun _ => (Return tt, [ev]).

(** A call of the logger [lg], without or with the [file=] keyword. *)
Definition log_line (lg : Logger) (file : option stream) (args : list log_arg) : M unit :=
  match file, file_keyword lg with
  | Some _, Some e => fun _ => (Raise e, [])
  | _, _ => emit (Log file args)
  end.

(** Keyword arguments: [ctx[k]] and [ctx] without [k]. *)
Fixpoint kw_get (k : string) (ctx : list (string * value)) : option value :=
  match ctx with
  | [] => None
  | (k', v) :: r => if String.eqb k' k then Some v else kw_get k r
  end.

Definition kw_del (k : string) (ctx : list (string * value)) : list (string * value) :=
  filter (fun kv => negb (String.eqb (fst kv) k)) ctx.

Definition call (smtp : smtp_oracle) (c : smtp_call) : M unit :=
  fun h =>
    match smtp h c with
    | Some e => (Raise e, [Smtp c (Some e)])
    | None => (Return tt, [Smtp c None])
    end.

Definition when (b : bool) (m : M unit) : M unit :=
  if b then m else ret tt.

Fixpoint for_each {A} (l : list A) (body : A -> M unit) : M unit :=
  match l with
  | [] => ret tt
  | x :: r => bind (body x) (fun _ => for_each r body)
  end.

Declare Scope py_scope.
Delimit Scope py_scope with py.
Notation "x <- m ;; k" := (bind m (fun x => k))
  (at level 61, m at next level, right associativity) : py_scope.
Notation "m ;; k" := (bind m (fun _ => k))
  (at level 61, right associativity) : py_scope.

(** ** Library functions taken as given

    [bytes.decode('UTF-8')], which raises on malformed input, and
    [Message.as_string()], the serialisation of headers and body, taken
    for the messages it serialises: a message whose headers the library
    refuses to write is outside the model. *)
Class Library := {
  decode_utf8 : list Byte.byte -> outcome string;
  as_string : Message -> string
}.

(** ** The mailer

    [TextMailer] is a [Dict] (of the [bl] package): its keys are read as
    attributes, and an attribute that was never set reads as [None].  The
    fields are the keys the methods read, [log] being the logger the
    constructor stores.  [debug] is the flag of the configuration; left
    unset it reads as [None], which fails both tests the code makes of
    it, as [False] does. *)
Record TextMailer := mkTextMailer {
  loader : option Loader;
  template_path : option string;
  host : option string;
  port : option Z;
  from_address : option string;
  to_address : option string;
  delivery : option string;
  username : option string;
  password : option string;
  debug : bool;
  log : Logger
}.

(** [__init__]: the keyword arguments are stored as they are, and a loader
    is built when a template path is given. *)
Definition init (loader_class : string -> Loader) (Email : TextMailer) : TextMailer :=
  match template_path Email with
  | Some path =>
      mkTextMailer (Some (loader_class path)) (template_path Email) (host Email)
        (port Email) (from_address Email) (to_address Email) (delivery Email)
        (username Email) (password Email) (debug Email) (log Email)
  | None => Email
  end.

Definition render `{Library} (self : TextMailer) (template : template_arg)
    (ctx : context) : outcome value :=
  obind
    match template, loader self with
    | TName name, Some ld => ld name
    | TName name, None => Return (Template.of_str name)
    | TObject tpl, _ => Return tpl
    end
    (fun template =>
  obind
    match Template.render template ctx with
    | Return r => Return r
    | Raise _ => Template.generate template ctx
    end
    (fun r =>
  match r with
  | VBytes b => obind (decode_utf8 b) (fun s => Return (VStr s))
  | _ => Return r
  end)).

(** [for addr in [addr for addr in addrs.split(',') if addr.strip() != '']:
       msg.add_header(name, addr.strip())] *)
Definition add_addresses (msg : Message) (name : string) (addrs : string) : Message :=
  fold_left
    (fun msg addr => Email.add_header msg name (Py.strip addr))
    (filter (fun addr => negb (String.eqb (Py.strip addr) ""))
            (Py.split Py.comma addrs))
    msg.

Definition message `{Library} (self : TextMailer) (template : option template_arg)
    (text : value) (to_addr subject from_addr cc bcc : option string)
    (ctx : context) : outcome Message :=
  obind
    match template with
    | Some tpl =>
        render self tpl
          ([("to_addr", of_opt (Py.or_ to_addr (to_address self)));
            ("from_addr", of_opt from_addr);
            ("cc", of_opt cc);
            ("bcc", of_opt bcc)] ++ ctx)%list
    | None => Return text
    end
    (fun text =>
  obind (Email.MIMEText text) (fun msg =>
  let msg := Email.setitem msg "From" (Py.or_ from_addr (from_address self)) in
  let msg := Email.setitem msg "Subject" subject in
  let msg := add_addresses msg "To" (Py.or_str (Py.or_ to_addr (to_address self)) "") in
  let msg := add_addresses msg "Cc" (Py.or_str cc "") in
  let msg := add_addresses msg "Bcc" (Py.or_str bcc "") in
  Return msg)).

(** [addr is not None and addr.strip() != ''] *)
Definition deliverable (addr : option string) : bool :=
  match addr with
  | Some s => negb (String.eqb (Py.strip s) "")
  | None => false
  end.

Definition tolist (msg : Message) : list (option string) :=
  filter deliverable
    (Email.or_nil (Email.get_all msg "To")
     ++ Email.or_nil (Email.get_all msg "Cc")
     ++ Email.or_nil (Email.get_all msg "Bcc"))%list.

Local Open Scope py_scope.

Definition send `{Library} (smtp : smtp_oracle) (self : TextMailer) (msg : Message)
    : M value :=
  if Py.eq_str (delivery self) "test" then
    ret (VStr (as_string msg))
  else if Py.eq_str (delivery self) "smtp" then
    let fromaddr := Email.getitem msg "From" in
    when (debug self) (log_line (log self) None [LStr "From ="; LVal fromaddr]) ;;
    let tolist := tolist msg in
    try_except
      (match port self with
       | Some p => call smtp (SMTP (Py.or_str (host self) "127.0.0.1") (Some p))
       | None => call smtp (SMTP (Py.or_str (host self) "127.0.0.1") None)
       end ;;
       call smtp (set_debuglevel (if debug self then 1 else 0)) ;;
       match username self, password self with
       | Some u, Some p => call smtp (login u p)
       | _, _ => ret tt
       end ;;
       for_each tolist (fun toaddr =>
         when (debug self) (log_line (log self) None [LStr "To ="; LVal toaddr]) ;;
         call smtp (sendmail fromaddr toaddr (as_string msg))) ;;
       call smtp quit ;;
       ret VNone)
      (fun e =>
         (if debug self then log_line (log self) None [LTraceback e]
          else log_line (log self) (Some stderr) [LStr "Emailer exception:"; LExc e]) ;;
         ret (VExc e))
  else
    ret VNone.

(** The [text] parameter of [message] when it is called with the keyword
    arguments [ctx] and no positional text: the [text=] keyword, or the
    default [None]. *)
Definition text_keyword (ctx : context) : value :=
  match kw_get "text" ctx with
  | Some v => v
  | None => VNone
  end.

(** [send_message] hands its keyword arguments on to [message]: a [text=]
    among them binds [message]'s own [text] parameter, the others are the
    template's context. *)
Definition send_message `{Library} (smtp : smtp_oracle) (self : TextMailer)
    (template : option template_arg) (to_addr subject from_addr cc bcc : option string)
    (ctx : context) : M value :=
  msg <- lift (message self template (text_keyword ctx) to_addr subject from_addr cc bcc
                 (kw_del "text" ctx)) ;;
  send smtp self msg.

Local Close Scope py_scope.

(** ** Vocabulary of the statements *)

(** The spec's reading of an address field: split on commas, trim each
    token, discard the empty ones. *)
Definition trimmed_tokens (s : string) : list string :=
  filter (fun t => negb (Py.is_empty t)) (map Py.strip (Py.split Py.comma s)).

Fixpoint all_space (s : string) : bool :=
  match s with
  | EmptyString => true
  | String c r => Py.is_space c && all_space r
  end.

(** [c in s] *)
Fixpoint mem (c : ascii) (s : string) : bool :=
  match s with
  | EmptyString => false
  | String d r => Ascii.eqb d c || mem c r
  end.

(** The spec's "capability not supported" signals. *)
Definition unsupported (e : exn) : bool :=
  String.eqb (exn_class e) "AttributeError"
  || String.eqb (exn_class e) "NotImplementedError"
  || String.eqb (exn_class e) "UnsupportedOperation".

(** The template object [render] ends up calling: the argument itself, or
    what the loader returns for a name; without a loader a name stays the
    [str] it is. *)
Definition resolves (self : TextMailer) (template : template_arg) (tpl : Template.t) : Prop :=
  match template with
  | TObject t => t = tpl
  | TName name =>
      match loader self with
      | Some ld => ld name = Return tpl
      | None => tpl = Template.of_str name
      end
  end.

(** What [render] makes of the value a template method returned. *)
Definition as_text `{Library} (r : outcome value) : outcome value :=
  match r with
  | Raise e => Raise e
  | Return (VBytes b) =>
      match decode_utf8 b with
      | Raise e => Raise e
      | Return s => Return (VStr s)
      end
  | Return v => Return v
  end.

(** The body of the [try] block, flattened: the SMTP calls and log lines
    it goes through when nothing raises. *)
Inductive step :=
| Do (c : smtp_call)
| Say (file : option stream) (args : list log_arg).

Definition run_step (smtp : smtp_oracle) (s : step) : M unit :=
  match s with
  | Do c => call smtp c
  | Say f a => emit (Log f a)
  end.

Fixpoint run (smtp : smtp_oracle) (l : list step) : M unit :=
  match l with
  | [] => ret tt
  | s :: r => bind (run_step smtp s) (fun _ => run smtp r)
  end.

(** [m] goes through the steps [l] and, when none raises, returns [a]. *)
Definition follows {A} (smtp : smtp_oracle) (m : M A) (l : list step) (a : A) : Prop :=
  forall h, m h = bind (run smtp l) (fun _ => ret a) h.

Definition ok_event (s : step) : event :=
  match s with
  | Do c => Smtp c None
  | Say f a => Log f a
  end.

Definition to_log (self : TextMailer) (toaddr : option string) : list step :=
  if debug self then [Say None [LStr "To ="; LVal toaddr]] else [].

Definition visit `{Library} (self : TextMailer) (msg : Message)
    (toaddr : option string) : list step :=
  to_log self toaddr
  ++ [Do (sendmail (Email.getitem msg "From") toaddr (as_string msg))].

Definition connect_step (self : TextMailer) : step :=
  Do (SMTP (Py.or_str (host self) "127.0.0.1") (port self)).

Definition auth_steps (self : TextMailer) : list step :=
  match username self, password self with
  | Some u, Some p => [Do (login u p)]
  | _, _ => []
  end.

Definition session `{Library} (self : TextMailer) (msg : Message) : list step :=
  [connect_step self; Do (set_debuglevel (if debug self then 1 else 0))]
  ++ auth_steps self
  ++ flat_map (visit self msg) (tolist msg)
  ++ [Do quit].

Definition from_log (self : TextMailer) (msg : Message) : list event :=
  if debug self then [Log None [LStr "From ="; LVal (Email.getitem msg "From")]] else [].

(** The exception the log call of the [except] branch raises, if any:
    only the call with [file=sys.stderr] can, the one made when debug is
    off. *)
Definition handler_refusal (self : TextMailer) : option exn :=
  if debug self then None else file_keyword (log self).

(** What [send] makes of a failure [e] of the [try] block: it returns
    [e], unless logging it raised. *)
Definition handler_result (self : TextMailer) (e : exn) : outcome value :=
  match handler_refusal self with
  | Some te => Raise te
  | None => Return (VExc e)
  end.

(** The line the [except] branch logs. *)
Definition failure_log (dbg : bool) (e : exn) : event :=
  if dbg then Log None [LTraceback e]
  else Log (Some stderr) [LStr "Emailer exception:"; LExc e].

(** What the [except] branch adds to the trace. *)
Definition handler_log (self : TextMailer) (e : exn) : list event :=
  match handler_refusal self with
  | Some _ => []
  | None => [failure_log (debug self) e]
  end.

(** The [sendmail] calls of a trace, in order: (from, to, body). *)
Definition sendmails (tr : list event) : list (option string * option string * string) :=
  flat_map (fun ev => match ev with
                      | Smtp (sendmail f t b) _ => [(f, t, b)]
                      | _ => []
                      end) tr.

Definition is_smtp (ev : event) : bool :=
  match ev with Smtp _ _ => true | Log _ _ => false end.

Definition is_login (ev : event) : bool :=
  match ev with Smtp (login _ _) _ => true | _ => false end.

Definition is_sendmail (ev : event) : bool :=
  match ev with Smtp (sendmail _ _ _) _ => true | _ => false end.

(** A call that raised. *)
Definition is_raise (ev : event) : bool :=
  match ev with Smtp _ (Some _) => true | _ => false end.

(** [sep.join(l)] for a separator of any length. *)
Fixpoint join_with (sep : string) (l : list string) : string :=
  match l with
  | [] => EmptyString
  | [t] => t
  | t :: ts => t ++ sep ++ join_with sep ts
  end.

(** An address as [message] stores it: not empty, nothing to trim, no
    comma. *)
Definition clean (t : string) : Prop :=
  t <> "" /\ Py.strip t = t /\ mem Py.comma t = false.

(** The keyword arguments [message] renders the template with. *)
Definition render_context (self : TextMailer) (to_addr from_addr cc bcc : option string)
    (ctx : context) : context :=
  ([("to_addr", of_opt (Py.or_ to_addr (to_address self)));
    ("from_addr", of_opt from_addr);
    ("cc", of_opt cc);
    ("bcc", of_opt bcc)] ++ ctx)%list.

(** The log lines of a trace, in order. *)
Definition logs (tr : list event) : list event :=
  filter (fun ev => negb (is_smtp ev)) tr.

Definition to_line (toaddr : option string) : event :=
  Log None [LStr "To ="; LVal toaddr].

(** A connection attempt, whatever its outcome. *)
Definition is_connect (ev : event) : bool :=
  match ev with Smtp (SMTP _ _) _ => true | _ => false end.

Definition is_quit (ev : event) : bool :=
  match ev with Smtp quit _ => true | _ => false end.

(** ** Sample collaborators, for running the model *)

Module Samples.

Definition newline : string := Email.newline.

(** The default logger: it takes no [file=] keyword. *)
Definition bl_Log : Logger :=
  mkLogger (Some (mkExn "TypeError" "got an unexpected keyword argument 'file'")).

(** A logger that takes every keyword. *)
Definition recording : Logger := mkLogger None.

Definition header_line (kv : string * option string) : string :=
  fst kv ++ ": " ++ match snd kv with Some v => v | None => "" end ++ newline.

(** Decoding of ASCII input only, and serialisation without folding. *)
#[export] Instance plain : Library := {|
  decode_utf8 b :=
    if forallb (fun x => (Byte.to_N x <? 128)%N) b
    then Return (string_of_list_byte b)
    else Raise (mkExn "UnicodeDecodeError" "invalid start byte");
  as_string msg :=
    String.concat "" (map header_line (Email.headers msg)) ++ newline ++ Email.payload msg
|}.

(** A mailer with the default logger and debug off. *)
Definition mailer (mode : string) (user pass : option string) : TextMailer :=
  mkTextMailer None None (Some "mail.x.com") None (Some "me@x.com")
    (Some "default@x.com") (Some mode) user pass false bl_Log.

(** The same mailer with another logger. *)
Definition with_log (lg : Logger) (m : TextMailer) : TextMailer :=
  mkTextMailer (loader m) (template_path m) (host m) (port m) (from_address m)
    (to_address m) (delivery m) (username m) (password m) (debug m) lg.

(** A mailer with debug on, credentials and a port, and no host. *)
Definition verbose : TextMailer :=
  mkTextMailer None None None (Some 2525%Z) (Some "me@x.com") None (Some "smtp")
    (Some "user") (Some "secret") true bl_Log.

(** A template whose [render] fails on a missing context variable and
    whose [generate] works. *)
Definition broken_render : Template.t :=
  Template.mk (fun _ => Raise (mkExn "KeyError" "name"))
              (fun _ => Return (VStr "fallback")).

(** A streaming template: no [render], [generate] yields bytes. *)
Definition streaming : Template.t :=
  Template.mk (fun _ => Raise (AttributeError "'Stream' object has no attribute 'render'"))
              (fun _ => Return (VBytes [Byte.x68; Byte.x69])).

Definition letter : Message :=
  Email.mkMessage
    [("From", Some "me@x.com"); ("To", Some "a@x.com"); ("To", Some "b@y.com");
     ("Cc", Some "a@x.com"); ("Bcc", Some "  "); ("Bcc", None)]
    "hello".

Definition refused (who : string) : exn := mkExn "SMTPRecipientsRefused" who.

(** A template neither of whose methods works. *)
Definition unrenderable : Template.t :=
  Template.mk (fun _ => Raise (mkExn "KeyError" "name"))
              (fun _ => Raise (mkExn "TypeError" "generate() got an unexpected keyword")).

(** A loader class that knows one template in every directory. *)
Definition one_file_loader (path : string) : Loader :=
  fun name =>
    if String.eqb name "welcome.txt" then Return streaming
    else Raise (mkExn "FileNotFoundError" (path ++ "/" ++ name)).

(** A server that accepts everything but the login. *)
Definition rejecting_login : smtp_oracle :=
  fun _ c =>
    match c with
    | login _ _ => Some (mkExn "SMTPAuthenticationError" "535")
    | _ => None
    end.

(** A server that fails only when the session is closed. *)
Definition failing_quit : smtp_oracle :=
  fun _ c =>
    match c with
    | quit => Some (mkExn "SMTPServerDisconnected" "Connection unexpectedly closed")
    | _ => None
    end.

(** A server that accepts everything. *)
Definition accepting : smtp_oracle := fun _ _ => None.

(** A server that refuses one recipient. *)
Definition refusing (who : string) : smtp_oracle :=
  fun _ c =>
    match c with
    | sendmail _ (Some t) _ => if String.eqb t who then Some (refused who) else None
    | _ => None
    end.

(** A server that cannot be reached. *)
Definition unreachable : smtp_oracle :=
  fun _ c =>
    match c with
    | SMTP _ _ => Some (mkExn "ConnectionRefusedError" "Connection refused")
    | _ => None
    end.

End Samples.

(** * Properties *)

(** ** Text operations *)

Section PyFacts.

Import Py.

Lemma lstrip_all_space s : all_space (lstrip s) = all_space s.
Proof.
  induction s as [|c r IH]; simpl; [reflexivity|].
  destruct (is_space c) eqn:E; simpl; [exact IH | now rewrite E].
Qed.

Lemma rstrip_empty_iff s : rstrip s = "" <-> all_space s = true.
Proof.
  induction s as [|c r IH]; simpl.
  - tauto.
  - destruct (rstrip r) eqn:R.
    + destruct (is_space c); simpl.
      * tauto.
      * split; discriminate.
    + split; [discriminate|].
      rewrite andb_true_iff. intros [_ H]. apply IH in H. discriminate.
Qed.

Lemma strip_empty_iff s : strip s = "" <-> all_space s = true.
Proof.
  unfold strip. rewrite rstrip_empty_iff, lstrip_all_space. tauto.
Qed.

Lemma rstrip_idem s : rstrip (rstrip s) = rstrip s.
Proof.
  induction s as [|c r IH]; simpl; [reflexivity|].
  destruct (rstrip r) eqn:R.
  - destruct (is_space c) eqn:E; simpl; [reflexivity | now rewrite E].
  - simpl in *. rewrite IH. reflexivity.
Qed.

Lemma lstrip_head s :
  lstrip s = "" \/ exists c r, lstrip s = String c r /\ is_space c = false.
Proof.
  induction s as [|c r IH]; simpl; [now left|].
  destruct (is_space c) eqn:E; [exact IH|].
  right. now exists c, r.
Qed.

Lemma rstrip_head c r :
  is_space c = false -> exists r', rstrip (String c r) = String c r'.
Proof.
  intros E. simpl. destruct (rstrip r).
  - rewrite E. now exists "".
  - now eexists.
Qed.

Lemma strip_idem s : strip (strip s) = strip s.
Proof.
  unfold strip.
  destruct (lstrip_head s) as [-> | (c & r & -> & E)]; [reflexivity|].
  destruct (rstrip_head c r E) as [r' Hr].
  rewrite Hr at 1. simpl lstrip. rewrite E, <- Hr. apply rstrip_idem.
Qed.

Lemma split_not_nil sep s : split sep s <> [].
Proof.
  destruct s as [|c r]; simpl; [discriminate|].
  destruct (Ascii.eqb c sep); [discriminate|].
  destruct (split sep r); discriminate.
Qed.

(** [split] loses nothing: joining the tokens gives the string back. *)
Lemma join_split sep s : join sep (split sep s) = s.
Proof.
  induction s as [|c r IH]; simpl; [reflexivity|].
  destruct (Ascii.eqb_spec c sep) as [->|N].
  - pose proof (split_not_nil sep r) as NE.
    destruct (split sep r) eqn:S; [contradiction|].
    simpl in *. now rewrite IH.
  - pose proof (split_not_nil sep r) as NE.
    destruct (split sep r) as [|t ts] eqn:S; [contradiction|].
    destruct ts; simpl in *; now rewrite <- IH.
Qed.

(** No token contains the separator. *)
Lemma split_no_sep sep s t : In t (split sep s) -> mem sep t = false.
Proof.
  revert t. induction s as [|c r IH]; simpl; intros t H.
  - destruct H as [<-|[]]. reflexivity.
  - destruct (Ascii.eqb c sep) eqn:E.
    + destruct H as [<-|H]; [reflexivity | now apply IH].
    + destruct (split sep r) as [|t0 ts] eqn:S.
      * destruct H as [<-|[]]. simpl. now rewrite E.
      * destruct H as [<-|H].
        -- simpl. rewrite E. apply IH. now left.
        -- apply IH. now right.
Qed.

Lemma eqb_empty s : String.eqb s "" = is_empty s.
Proof. now destruct s. Qed.

End PyFacts.

(** The comprehension filters on the stripped token and the loop strips
    again: together they are the spec's split, trim, discard. *)
Lemma strip_kept_tokens (l : list string) :
  map Py.strip (filter (fun addr => negb (String.eqb (Py.strip addr) "")) l)
  = filter (fun t => negb (Py.is_empty t)) (map Py.strip l).
Proof.
  induction l as [|a l IH]; simpl; [reflexivity|].
  rewrite eqb_empty. destruct (Py.is_empty (Py.strip a)); simpl; now rewrite IH.
Qed.

Lemma lstrip_mem c s : mem c s = false -> mem c (Py.lstrip s) = false.
Proof.
  induction s as [|d r IH]; simpl; [reflexivity|].
  intros H. apply orb_false_iff in H as [H1 H2].
  destruct (Py.is_space d); simpl; [now apply IH | now rewrite H1, H2].
Qed.

Lemma rstrip_mem c s : mem c s = false -> mem c (Py.rstrip s) = false.
Proof.
  induction s as [|d r IH]; simpl; [reflexivity|].
  intros H. apply orb_false_iff in H as [H1 H2]. specialize (IH H2).
  destruct (Py.rstrip r).
  - destruct (Py.is_space d); simpl; [reflexivity | now rewrite H1].
  - change (mem c (String d (String a s))) with (Ascii.eqb d c || mem c (String a s)).
    now rewrite H1, IH.
Qed.

(** Every address the spec's reading yields is non-empty, carries no
    surrounding whitespace and no comma. *)
Lemma trimmed_tokens_trimmed s t :
  In t (trimmed_tokens s) -> t <> "" /\ Py.strip t = t /\ mem Py.comma t = false.
Proof.
  unfold trimmed_tokens. rewrite filter_In, in_map_iff.
  intros [(a & <- & Ha) Hne]. repeat split.
  - intros E. now rewrite E in Hne.
  - apply strip_idem.
  - apply rstrip_mem, lstrip_mem. eapply split_no_sep; eauto.
Qed.

(** A string whose tokens are all blank yields no address. *)
Lemma trimmed_tokens_blank s :
  Forall (fun t => all_space t = true) (Py.split Py.comma s) -> trimmed_tokens s = [].
Proof.
  unfold trimmed_tokens. induction 1 as [|t l Ht _ IH]; simpl; [reflexivity|].
  apply strip_empty_iff in Ht. now rewrite Ht.
Qed.

(** ** Building the message *)

Section MessageFacts.

Context `{Library}.

Lemma values_setitem msg name k v :
  Email.values (Email.setitem msg k v) name
  = (Email.values msg name ++ if Email.same_name name (k, v) then [v] else [])%list.
Proof.
  unfold Email.values, Email.setitem. simpl.
  rewrite filter_app, map_app. simpl.
  now destruct (Email.same_name name (k, v)).
Qed.

Lemma values_add_each field name l : forall msg,
  Email.values
    (fold_left (fun msg addr => Email.add_header msg field (Py.strip addr)) l msg) name
  = (Email.values msg name
     ++ if Email.same_name name (field, None) then map Some (map Py.strip l) else [])%list.
Proof.
  induction l as [|a l IH]; intros msg; simpl.
  - destruct (Email.same_name name (field, None)); now rewrite ?app_nil_r.
  - rewrite IH. unfold Email.add_header. rewrite values_setitem.
    unfold Email.same_name; simpl.
    destruct (String.eqb (Py.lower field) (Py.lower name)); rewrite <- app_assoc; reflexivity.
Qed.

Lemma values_add_addresses msg field name s :
  Email.values (add_addresses msg field s) name
  = (Email.values msg name
     ++ if Email.same_name name (field, None) then map Some (trimmed_tokens s) else [])%list.
Proof.
  unfold add_addresses. rewrite values_add_each.
  unfold trimmed_tokens. now rewrite strip_kept_tokens.
Qed.

(** The three address fields of a built message. *)
Lemma message_values self template text to_addr subject from_addr cc bcc ctx msg :
  message self template text to_addr subject from_addr cc bcc ctx = Return msg ->
  Email.values msg "To"
    = map Some (trimmed_tokens (Py.or_str (Py.or_ to_addr (to_address self)) ""))
  /\ Email.values msg "Cc" = map Some (trimmed_tokens (Py.or_str cc ""))
  /\ Email.values msg "Bcc" = map Some (trimmed_tokens (Py.or_str bcc "")).
Proof.
  unfold message.
  destruct (match template with Some _ => _ | None => _ end) as [e|txt]; simpl;
    [discriminate|].
  destruct txt; simpl; try discriminate.
  intros E. injection E as <-.
  repeat split; rewrite !values_add_addresses, !values_setitem; simpl;
    rewrite ?app_nil_r; reflexivity.
Qed.

(** With the text given and no template, [message] always returns. *)
Lemma message_text_returns self body to_addr subject from_addr cc bcc ctx :
  exists msg,
    message self None (VStr body) to_addr subject from_addr cc bcc ctx = Return msg.
Proof. unfold message; simpl. eauto. Qed.

Lemma or_str_given s : s <> "" -> forall d, Py.or_str (Py.or_ (Some s) d) "" = s.
Proof. intros N d. destruct s; [contradiction | reflexivity]. Qed.

Lemma or_str_some s : Py.or_str (Some s) "" = s.
Proof. now destruct s. Qed.

End MessageFacts.

(** C5 (amended).  For every string given as Cc or Bcc, and for every
    string given as To that is non-empty (or when the mailer has no usable
    default to-address), the built message carries exactly one header of
    that field per trimmed non-empty token of the string, in the order of
    the tokens.  The address strings never make [message] fail: with the
    text given it always returns; and a string whose tokens are all empty
    or whitespace-only yields no token, hence no header.  (An empty To
    string is the excluded case: it is replaced by the default.) *)
Theorem message_address_headers `{Library} self template text to_addr subject
    from_addr cc bcc ctx :
  (forall msg,
      message self template text to_addr subject from_addr cc bcc ctx = Return msg ->
      (forall s, to_addr = Some s ->
                 s <> "" \/ Py.truthy (to_address self) = false ->
                 Email.values msg "To" = map Some (trimmed_tokens s))
      /\ (forall s, cc = Some s -> Email.values msg "Cc" = map Some (trimmed_tokens s))
      /\ (forall s, bcc = Some s -> Email.values msg "Bcc" = map Some (trimmed_tokens s)))
  /\ (forall body, template = None -> text = VStr body ->
        exists msg,
          message self template text to_addr subject from_addr cc bcc ctx = Return msg)
  /\ (forall s, Forall (fun t => all_space t = true) (Py.split Py.comma s) ->
                trimmed_tokens s = []).
Proof.
  split; [|split].
  - intros msg E. apply message_values in E as (HTo & HCc & HBcc).
    repeat split.
    + intros s -> Hs. rewrite HTo. f_equal. f_equal.
      destruct Hs as [Hs | Hd].
      * now apply or_str_given.
      * destruct s; [|reflexivity].
        unfold Py.or_. simpl.
        destruct (to_address self) as [[|c r]|]; simpl in *; try reflexivity.
        discriminate.
    + intros s ->. now rewrite HCc, or_str_some.
    + intros s ->. now rewrite HBcc, or_str_some.
  - intros body -> ->. apply message_text_returns.
  - apply trimmed_tokens_blank.
Qed.

(** C10.  With a non-empty default to-address configured, [to_addr=""]
    builds the same message as [to_addr=None]: whenever the body text is
    there (the text given, or the template rendered), both calls return
    one and the same message, and its To headers are the addresses of the
    default. *)
Theorem message_empty_to_is_absent `{Library} self template text subject
    from_addr cc bcc ctx d :
  to_address self = Some d -> d <> "" ->
  message self template text (Some "") subject from_addr cc bcc ctx
  = message self template text None subject from_addr cc bcc ctx
  /\ (forall msg,
        message self template text (Some "") subject from_addr cc bcc ctx = Return msg ->
        Email.values msg "To" = map Some (trimmed_tokens d))
  /\ (forall body,
        match template with
        | Some tpl =>
            render self tpl (render_context self (Some "") from_addr cc bcc ctx)
            = Return (VStr body)
        | None => text = VStr body
        end ->
        exists msg,
          message self template text (Some "") subject from_addr cc bcc ctx = Return msg
          /\ message self template text None subject from_addr cc bcc ctx = Return msg
          /\ Email.values msg "To" = map Some (trimmed_tokens d)).
Proof.
  intros Hd Hne.
  assert (To : forall msg,
             message self template text (Some "") subject from_addr cc bcc ctx
             = Return msg ->
             Email.values msg "To" = map Some (trimmed_tokens d)).
  { intros msg E. apply message_values in E as (HTo & _).
    rewrite HTo, Hd. destruct d; [contradiction | reflexivity]. }
  split; [reflexivity|]. split; [exact To|].
  intros body Hbody.
  assert (E : exists msg,
             message self template text (Some "") subject from_addr cc bcc ctx
             = Return msg).
  { unfold message. destruct template as [tpl|].
    - unfold render_context in Hbody. rewrite Hbody. simpl. eauto.
    - rewrite Hbody. simpl. eauto. }
  destruct E as [msg E]. exists msg. split; [exact E|]. split; [exact E|].
  now apply To.
Qed.

(** ** Rendering *)

Lemma render_resolved `{Library} self template tpl ctx :
  resolves self template tpl ->
  render self template ctx
  = as_text match Template.render tpl ctx with
            | Return r => Return r
            | Raise _ => Template.generate tpl ctx
            end.
Proof.
  unfold resolves, render. intros R.
  assert (E : match template, loader self with
              | TName name, Some ld => ld name
              | TName name, None => Return (Template.of_str name)
              | TObject t, _ => Return t
              end = Return tpl).
  { destruct template as [name|t]; [destruct (loader self)|]; congruence. }
  rewrite E. simpl.
  destruct (match Template.render tpl ctx with Return r => _ | Raise _ => _ end)
    as [e|[]]; reflexivity.
Qed.

(** C3 (amended).  Whatever failure the primary [render] capability
    raises, unsupported-operation signal or not, the mailer catches it and
    falls back to [generate]: the result of the mailer's render is the
    outcome of [generate] (decoded when it is bytes), and the primary
    failure itself is not what the caller sees. *)
Theorem render_failure_falls_back `{Library} self template tpl ctx e :
  resolves self template tpl ->
  Template.render tpl ctx = Raise e ->
  render self template ctx = as_text (Template.generate tpl ctx).
Proof.
  intros R E. rewrite (render_resolved _ _ _ _ R), E. reflexivity.
Qed.

(** C4 (amended).  Without a loader, rendering a template given by name
    fails with an [AttributeError]: the name is used as the template
    object, and neither [render] nor [generate] exists on a [str]. *)
Theorem render_name_without_loader `{Library} self name ctx :
  loader self = None ->
  render self (TName name) ctx
  = Raise (AttributeError "'str' object has no attribute 'generate'").
Proof.
  intros L. unfold render. rewrite L. reflexivity.
Qed.

(** A mailer built without a template path (and without a loader passed in
    the configuration) has no loader. *)
Lemma init_without_path loader_class Email :
  template_path Email = None -> loader Email = None ->
  loader (init loader_class Email) = None.
Proof. unfold init. now intros -> ->. Qed.

(** C9.  When the primary [render] capability raises an unsupported
    signal, the mailer's render returns what [generate] returns: bytes are
    decoded as UTF-8, text is passed through unchanged. *)
Theorem render_unsupported_fallback `{Library} self template tpl ctx e :
  resolves self template tpl ->
  Template.render tpl ctx = Raise e ->
  unsupported e = true ->
  (forall s, Template.generate tpl ctx = Return (VStr s) ->
             render self template ctx = Return (VStr s))
  /\ (forall b, Template.generate tpl ctx = Return (VBytes b) ->
                render self template ctx
                = obind (decode_utf8 b) (fun s => Return (VStr s))).
Proof.
  intros R E _. rewrite (render_resolved _ _ _ _ R), E.
  split.
  - intros s ->. reflexivity.
  - intros b ->. simpl. destruct (decode_utf8 b); reflexivity.
Qed.

(** ** The delivery transaction *)

Section Effects.

Variable smtp : smtp_oracle.

Lemma bind_ret_l {A B} (a : A) (f : A -> M B) h : bind (ret a) f h = f a h.
Proof.
  unfold bind, ret. rewrite app_nil_r. now destruct (f a h).
Qed.

Lemma bind_assoc {A B C} (m : M A) (f : A -> M B) (g : B -> M C) h :
  bind (bind m f) g h = bind m (fun a => bind (f a) g) h.
Proof.
  unfold bind. destruct (m h) as [[e|a] t]; [reflexivity|].
  destruct (f a (h ++ t)%list) as [[e|b] t']; [reflexivity|].
  rewrite <- app_assoc.
  destruct (g b (h ++ t ++ t')%list) as [r t'']. now rewrite app_assoc.
Qed.

Lemma bind_ext {A B} (m : M A) (f g : A -> M B) h :
  (forall a h', f a h' = g a h') -> bind m f h = bind m g h.
Proof.
  intros E. unfold bind. destruct (m h) as [[e|a] t]; [reflexivity|].
  now rewrite E.
Qed.

Lemma run_app l1 l2 h :
  run smtp (l1 ++ l2) h = bind (run smtp l1) (fun _ => run smtp l2) h.
Proof.
  revert h. induction l1 as [|s l1 IH]; intros h; simpl.
  - now rewrite bind_ret_l.
  - rewrite bind_assoc. apply bind_ext. intros _ h'. apply IH.
Qed.

Lemma follows_ret {A} (a : A) : follows smtp (ret a) [] a.
Proof. intros h. simpl. now rewrite bind_ret_l. Qed.

Lemma follows_step s : follows smtp (run_step smtp s) [s] tt.
Proof.
  intros h. simpl. unfold bind, ret.
  destruct (run_step smtp s h) as [[e|[]] t]; [reflexivity|].
  now rewrite !app_nil_r.
Qed.

Lemma follows_bind {A B} (m : M A) (f : A -> M B) l1 l2 a b :
  follows smtp m l1 a -> follows smtp (f a) l2 b -> follows smtp (bind m f) (l1 ++ l2) b.
Proof.
  intros H1 H2 h. unfold bind at 2. rewrite run_app.
  unfold bind at 1. rewrite H1. unfold bind at 1 2.
  destruct (run smtp l1 h) as [[e|[]] t]; [reflexivity|].
  unfold ret at 1. rewrite app_nil_r. rewrite H2. unfold bind.
  destruct (run smtp l2 (h ++ t)%list) as [[e|[]] t']; [reflexivity|].
  unfold ret. now rewrite !app_nil_r.
Qed.

Lemma follows_for_each {A} (body : A -> M unit) (steps : A -> list step) l :
  (forall x, follows smtp (body x) (steps x) tt) ->
  follows smtp (for_each l body) (flat_map steps l) tt.
Proof.
  intros Hb. induction l as [|x l IH]; simpl.
  - apply follows_ret.
  - eapply follows_bind; [apply Hb | exact IH].
Qed.

(** A run of a list of steps stops at the first call that raises. *)
Lemma run_cases l : forall h,
  run smtp l h = (Return tt, map ok_event l)
  \/ exists p c q e,
       l = (p ++ Do c :: q)%list
       /\ run smtp l h = (Raise e, (map ok_event p ++ [Smtp c (Some e)])%list).
Proof.
  induction l as [|s l IH]; intros h; simpl.
  - now left.
  - unfold bind. destruct s as [c|f a]; simpl.
    + unfold call. destruct (smtp h c) as [e|].
      * right. exists [], c, l, e. split; reflexivity.
      * destruct (IH (h ++ [Smtp c None])%list) as [E | (p & c' & q & e & -> & E)];
          rewrite E.
        -- now left.
        -- right. exists (Do c :: p), c', q, e. split; reflexivity.
    + destruct (IH (h ++ [Log f a])%list) as [E | (p & c' & q & e & -> & E)];
        rewrite E.
      * now left.
      * right. exists (Say f a :: p), c', q, e. split; reflexivity.
Qed.

End Effects.

Section Send.

Context `{Library}.
Variable smtp : smtp_oracle.
Variable self : TextMailer.
Variable msg : Message.

Local Open Scope py_scope.

Lemma visit_follows toaddr :
  follows smtp
    (when (debug self) (log_line (log self) None [LStr "To ="; LVal toaddr]) ;;
     call smtp (sendmail (Email.getitem msg "From") toaddr (as_string msg)))
    (visit self msg toaddr) tt.
Proof.
  unfold visit. eapply follows_bind.
  - unfold to_log. destruct (debug self); simpl.
    + apply (follows_step smtp (Say None [LStr "To ="; LVal toaddr])).
    + apply follows_ret.
  - apply (follows_step smtp (Do _)).
Qed.

(** The [try] block goes through the session's steps and returns
    [None]. *)
Lemma try_block_follows :
  follows smtp
    (match port self with
     | Some p => call smtp (SMTP (Py.or_str (host self) "127.0.0.1") (Some p))
     | None => call smtp (SMTP (Py.or_str (host self) "127.0.0.1") None)
     end ;;
     call smtp (set_debuglevel (if debug self then 1 else 0)) ;;
     match username self, password self with
     | Some u, Some p => call smtp (login u p)
     | _, _ => ret tt
     end ;;
     for_each (tolist msg) (fun toaddr =>
       when (debug self) (log_line (log self) None [LStr "To ="; LVal toaddr]) ;;
       call smtp (sendmail (Email.getitem msg "From") toaddr (as_string msg))) ;;
     call smtp quit ;;
     ret VNone)
    (session self msg) VNone.
Proof.
  unfold session.
  apply (follows_bind smtp _ _ [connect_step self] _ tt).
  { unfold connect_step. destruct (port self); apply (follows_step smtp (Do _)). }
  apply (follows_bind smtp _ _ [_] _ tt); [apply (follows_step smtp (Do _))|].
  eapply follows_bind.
  { unfold auth_steps. destruct (username self), (password self);
      first [apply (follows_step smtp (Do _)) | apply follows_ret]. }
  eapply follows_bind.
  { apply follows_for_each. apply visit_follows. }
  apply (follows_bind smtp _ _ [_] [] tt); [apply (follows_step smtp (Do _))|].
  apply follows_ret.
Qed.

Lemma try_smtp (body : M value) h :
  follows smtp body (session self msg) VNone ->
  try_except body
    (fun e =>
       (if debug self then log_line (log self) None [LTraceback e]
        else log_line (log self) (Some stderr) [LStr "Emailer exception:"; LExc e]) ;;
       ret (VExc e)) h
  = match run smtp (session self msg) h with
    | (Return _, t) => (Return VNone, t)
    | (Raise e, t) => (handler_result self e, t ++ handler_log self e)
    end%list.
Proof.
  intros F. unfold try_except. rewrite F. unfold bind at 1.
  destruct (run smtp (session self msg) h) as [[e|[]] t].
  - unfold handler_result, handler_log, handler_refusal, failure_log, log_line.
    destruct (debug self); [reflexivity|].
    destruct (file_keyword (log self)); reflexivity.
  - unfold ret. now rewrite app_nil_r.
Qed.

Hypothesis smtp_mode : delivery self = Some "smtp".

Lemma send_smtp h :
  send smtp self msg h
  = match run smtp (session self msg) (h ++ from_log self msg) with
    | (Return _, t) => (Return VNone, from_log self msg ++ t)
    | (Raise e, t) =>
        (handler_result self e, from_log self msg ++ t ++ handler_log self e)
    end%list.
Proof.
  unfold send. rewrite smtp_mode.
  change (Py.eq_str (Some "smtp") "test") with false.
  change (Py.eq_str (Some "smtp") "smtp") with true. cbv iota.
  erewrite bind_ext; [|intros a h'; apply try_smtp, try_block_follows].
  unfold from_log, bind, when, log_line, emit, ret.
  destruct (debug self).
  - destruct (run smtp (session self msg) _) as [[e|[]] t]; reflexivity.
  - rewrite app_nil_r.
    destruct (run smtp (session self msg) _) as [[e|[]] t]; reflexivity.
Qed.

(** A send in SMTP mode either goes through the whole session and returns
    [None], or stops at the first call that raises and runs the [except]
    branch: it logs the failure and returns the exception, unless the log
    call itself raises. *)
Lemma send_cases h :
  send smtp self msg h
    = (Return VNone, (from_log self msg ++ map ok_event (session self msg))%list)
  \/ exists p c q e,
       session self msg = (p ++ Do c :: q)%list
       /\ send smtp self msg h
          = (handler_result self e,
             (from_log self msg ++ map ok_event p
              ++ Smtp c (Some e) :: handler_log self e)%list).
Proof.
  rewrite send_smtp.
  destruct (run_cases smtp (session self msg) (h ++ from_log self msg))
    as [E | (p & c & q & e & S & E)]; rewrite E.
  - now left.
  - right. exists p, c, q, e. split; [exact S|].
    now rewrite <- !app_assoc.
Qed.

End Send.

(** ** List surgery used below *)

Lemma cons_split {A} (x y : A) l p q :
  x :: l = (p ++ y :: q)%list ->
  (p = [] /\ x = y /\ l = q) \/ exists p', p = x :: p' /\ l = (p' ++ y :: q)%list.
Proof.
  destruct p as [|z p]; simpl; intros E; injection E as -> ->.
  - now left.
  - right. now eexists.
Qed.

(** An element singled out by [P] sits at one place only. *)
Lemma unique_split {A} (P : A -> bool) a1 x b1 : forall a2 y b2,
  (a1 ++ x :: b1 = a2 ++ y :: b2)%list ->
  P y = true ->
  (forall z, In z a1 -> P z = false) ->
  (forall z, In z b1 -> P z = false) ->
  a1 = a2 /\ x = y /\ b1 = b2.
Proof.
  induction a1 as [|z a1 IH]; intros a2 y b2 E Py Ha Hb.
  - destruct a2 as [|z' a2]; simpl in E; injection E as -> ->.
    + auto.
    + rewrite Hb in Py; [discriminate | apply in_elt].
  - destruct a2 as [|z' a2]; simpl in E; injection E as -> E.
    + rewrite Ha in Py; [discriminate | now left].
    + destruct (IH a2 y b2 E Py) as (-> & -> & ->); auto.
      intros z Hz. apply Ha. now right.
Qed.

Lemma sendmails_app t1 t2 : sendmails (t1 ++ t2) = (sendmails t1 ++ sendmails t2)%list.
Proof. apply flat_map_app. Qed.

Section Session.

Context `{Library}.
Variable self : TextMailer.
Variable msg : Message.

Lemma sendmails_from_log : sendmails (from_log self msg) = [].
Proof. unfold from_log. now destruct (debug self). Qed.

Lemma sendmails_loop rs :
  sendmails (map ok_event (flat_map (visit self msg) rs))
  = map (fun r => (Email.getitem msg "From", r, as_string msg)) rs.
Proof.
  induction rs as [|r rs IH]; simpl; [reflexivity|].
  rewrite map_app, sendmails_app, IH. unfold visit, to_log.
  destruct (debug self); reflexivity.
Qed.

Lemma sendmails_auth : sendmails (map ok_event (auth_steps self)) = [].
Proof. unfold auth_steps. now destruct (username self), (password self). Qed.

Lemma sendmails_session :
  sendmails (map ok_event (session self msg))
  = map (fun r => (Email.getitem msg "From", r, as_string msg)) (tolist msg).
Proof.
  unfold session. rewrite !map_app, !sendmails_app, sendmails_auth, sendmails_loop.
  simpl. now rewrite app_nil_r.
Qed.

Lemma to_log_split a x rest p c q :
  (to_log self a ++ Do x :: rest = p ++ Do c :: q)%list ->
  (p = to_log self a /\ x = c /\ rest = q)
  \/ exists p', p = (to_log self a ++ Do x :: p')%list /\ rest = (p' ++ Do c :: q)%list.
Proof.
  unfold to_log. destruct (debug self); simpl; intros E.
  - apply cons_split in E as [(_ & [=] & _) | (p1 & -> & E)].
    apply cons_split in E as [(-> & [= ->] & ->) | (p2 & -> & ->)].
    + now left.
    + right. now exists p2.
  - apply cons_split in E as [(-> & [= ->] & ->) | (p2 & -> & ->)].
    + now left.
    + right. now exists p2.
Qed.

(** Where a call sits when it is found in the loop followed by [tl]. *)
Lemma loop_split tl c q rs : forall p,
  (flat_map (visit self msg) rs ++ tl = p ++ Do c :: q)%list ->
  (exists rs1 r rs2,
      rs = (rs1 ++ r :: rs2)%list
      /\ c = sendmail (Email.getitem msg "From") r (as_string msg)
      /\ p = (flat_map (visit self msg) rs1 ++ to_log self r)%list)
  \/ exists t1, p = (flat_map (visit self msg) rs ++ t1)%list
                /\ tl = (t1 ++ Do c :: q)%list.
Proof.
  induction rs as [|a rs IH]; intros p E; simpl in E.
  - right. now exists p.
  - unfold visit at 1 in E. rewrite <- !app_assoc in E. simpl in E.
    apply to_log_split in E as [(Ep & Ec & Eq) | (p' & Ep & E)].
    + left. exists [], a, rs. now subst.
    + apply IH in E as [(rs1 & r & rs2 & E1 & E2 & E3) | (t1 & E1 & E2)].
      * left. exists (a :: rs1), r, rs2. subst. simpl. unfold visit at 2.
        rewrite <- !app_assoc. now repeat split.
      * right. exists t1. subst. simpl. unfold visit at 2.
        rewrite <- !app_assoc. now split.
Qed.

Lemma auth_split rest p c q :
  (auth_steps self ++ rest = p ++ Do c :: q)%list ->
  (exists u pw, username self = Some u /\ password self = Some pw
                /\ p = [] /\ c = login u pw /\ q = rest)
  \/ exists p', p = (auth_steps self ++ p')%list /\ rest = (p' ++ Do c :: q)%list.
Proof.
  unfold auth_steps. destruct (username self) as [u|], (password self) as [pw|];
    simpl; intros E; try (right; now exists p).
  apply cons_split in E as [(-> & [= <-] & <-) | (p' & -> & ->)].
  - left. now exists u, pw.
  - right. now exists p'.
Qed.

(** The five places where a session can be cut by a call [c]. *)
Lemma session_split p c q :
  session self msg = (p ++ Do c :: q)%list ->
  (p = [] /\ Do c = connect_step self)
  \/ (p = [connect_step self] /\ c = set_debuglevel (if debug self then 1 else 0))
  \/ (exists u pw, username self = Some u /\ password self = Some pw
                   /\ p = [connect_step self;
                           Do (set_debuglevel (if debug self then 1 else 0))]
                   /\ c = login u pw)
  \/ (exists rs1 r rs2,
         tolist msg = (rs1 ++ r :: rs2)%list
         /\ c = sendmail (Email.getitem msg "From") r (as_string msg)
         /\ p = ([connect_step self;
                  Do (set_debuglevel (if debug self then 1 else 0))]
                 ++ auth_steps self
                 ++ flat_map (visit self msg) rs1 ++ to_log self r)%list)
  \/ (c = quit
      /\ p = ([connect_step self;
               Do (set_debuglevel (if debug self then 1 else 0))]
              ++ auth_steps self
              ++ flat_map (visit self msg) (tolist msg))%list).
Proof.
  unfold session. simpl. intros E.
  apply cons_split in E as [(-> & E & _) | (p1 & -> & E)]; [now left|].
  apply cons_split in E as [(-> & [= <-] & _) | (p2 & -> & E)]; [right; now left|].
  apply auth_split in E as [(u & pw & Hu & Hp & -> & -> & _) | (p3 & -> & E)].
  { right; right; left. now exists u, pw. }
  apply loop_split in E as [(rs1 & r & rs2 & E1 & -> & ->) | (t1 & -> & E)].
  { right; right; right; left. now exists rs1, r, rs2. }
  apply cons_split in E as [(-> & [= <-] & _) | (p4 & _ & E)].
  - right; right; right; right. now rewrite app_nil_r.
  - now apply app_cons_not_nil in E.
Qed.

End Session.

(** ** What a send leaves in the trace *)

Lemma ok_events_no_raise l ev : In ev (map ok_event l) -> is_raise ev = false.
Proof.
  rewrite in_map_iff. intros (s & <- & _). now destruct s.
Qed.

Lemma from_log_no_smtp self msg ev : In ev (from_log self msg) -> is_smtp ev = false.
Proof.
  unfold from_log. destruct (debug self); simpl; [|tauto].
  intros [<-|[]]. reflexivity.
Qed.

Lemma failure_log_is_log dbg e : is_smtp (failure_log dbg e) = false.
Proof. now destruct dbg. Qed.

Lemma or_nil_get_all msg name :
  Email.or_nil (Email.get_all msg name) = Email.values msg name.
Proof.
  unfold Email.get_all. now destruct (Email.values msg name).
Qed.

Lemma deliverable_iff a :
  deliverable a = true <-> exists s, a = Some s /\ all_space s = false.
Proof.
  destruct a as [s|]; simpl.
  - rewrite negb_true_iff. split.
    + intros E. exists s. split; [reflexivity|].
      destruct (all_space s) eqn:A; [|reflexivity].
      apply strip_empty_iff in A. rewrite A in E. discriminate.
    + intros (s' & [= <-] & A).
      destruct (String.eqb_spec (Py.strip s) ""); [|reflexivity].
      apply strip_empty_iff in e. congruence.
  - split; [discriminate | intros (s & [=] & _)].
Qed.

Lemma firstn_length_app {A} (l1 l2 : list A) : firstn (length l1) (l1 ++ l2) = l1.
Proof. induction l1; simpl; congruence. Qed.

(** The two ways the [except] branch can end. *)
Lemma handler_cases self e :
  ((debug self = true \/ file_keyword (log self) = None)
   /\ handler_result self e = Return (VExc e)
   /\ handler_log self e = [failure_log (debug self) e])
  \/ exists te,
       debug self = false /\ file_keyword (log self) = Some te
       /\ handler_result self e = Raise te
       /\ handler_log self e = [].
Proof.
  unfold handler_result, handler_log, handler_refusal.
  destruct (debug self); [left; auto|].
  destruct (file_keyword (log self)) as [te|]; [right; exists te; auto | left; auto].
Qed.

Lemma handler_log_no_smtp self e ev : In ev (handler_log self e) -> is_smtp ev = false.
Proof.
  destruct (handler_cases self e) as [(_ & _ & ->) | (te & _ & _ & _ & ->)].
  - intros [<- | []]. apply failure_log_is_log.
  - intros [].
Qed.

Lemma handler_result_not_None self e : handler_result self e <> Return VNone.
Proof.
  destruct (handler_cases self e) as [(_ & -> & _) | (te & _ & _ & -> & _)];
    discriminate.
Qed.

Section Transaction.

Context `{Library}.
Variable smtp : smtp_oracle.
Variable self : TextMailer.
Variable msg : Message.
Hypothesis smtp_mode : delivery self = Some "smtp".

Lemma opening_no_raise p :
  Forall (fun ev => is_raise ev = false) (from_log self msg ++ map ok_event p).
Proof.
  apply Forall_forall. intros ev Hin. apply in_app_or in Hin as [Hin | Hin].
  - apply from_log_no_smtp in Hin. now destruct ev as [c [e|]|].
  - now apply ok_events_no_raise in Hin.
Qed.

(** The outcome of the failing call does not matter to [sendmails], nor
    does what the [except] branch logs. *)
Lemma sendmails_cut p c e :
  sendmails (map ok_event p ++ Smtp c (Some e) :: handler_log self e)
  = sendmails (map ok_event (p ++ [Do c])).
Proof.
  rewrite map_app, !sendmails_app. f_equal.
  change (Smtp c (Some e) :: handler_log self e)
    with ([Smtp c (Some e)] ++ handler_log self e)%list.
  rewrite sendmails_app.
  assert (L : sendmails (handler_log self e) = []).
  { destruct (handler_cases self e) as [(_ & _ & ->) | (te & _ & _ & _ & ->)];
      [|reflexivity].
    unfold failure_log. now destruct (debug self). }
  rewrite L, app_nil_r. now destruct c.
Qed.

(** Where a call that raised stands: at the end of a prefix of the
    session that went well, followed by what the [except] branch logged. *)
Lemma raise_position h pre c e post :
  snd (send smtp self msg h) = (pre ++ Smtp c (Some e) :: post)%list ->
  exists p q,
    session self msg = (p ++ Do c :: q)%list
    /\ pre = (from_log self msg ++ map ok_event p)%list
    /\ post = handler_log self e
    /\ fst (send smtp self msg h) = handler_result self e.
Proof.
  destruct (send_cases smtp self msg smtp_mode h) as [E | (p & c' & q & e' & S & E)];
    rewrite E; cbn [fst snd]; intros T.
  - exfalso.
    assert (Hin : In (Smtp c (Some e))
                     (from_log self msg ++ map ok_event (session self msg))).
    { rewrite T. apply in_elt. }
    pose proof (opening_no_raise (session self msg)) as F.
    rewrite Forall_forall in F. apply F in Hin. discriminate.
  - rewrite app_assoc in T.
    pose proof (opening_no_raise p) as F. rewrite Forall_forall in F.
    apply (unique_split is_raise) in T as (<- & [= -> ->] & <-);
      [|reflexivity | exact F |].
    + exists p, q. auto.
    + intros z Hz. apply handler_log_no_smtp in Hz. now destruct z as [? [?|]|].
Qed.

Lemma raise_in_trace h c e :
  In (Smtp c (Some e)) (snd (send smtp self msg h)) ->
  exists p q,
    session self msg = (p ++ Do c :: q)%list
    /\ snd (send smtp self msg h)
       = (from_log self msg ++ map ok_event p
          ++ Smtp c (Some e) :: handler_log self e)%list
    /\ fst (send smtp self msg h) = handler_result self e.
Proof.
  intros Hin. destruct (in_split _ _ Hin) as (pre & post & T).
  destruct (raise_position h pre c e post T) as (p & q & S & -> & -> & R).
  exists p, q. split; [exact S|]. split; [|exact R].
  rewrite T. now rewrite <- app_assoc.
Qed.

End Transaction.

(** C2.  In test mode [send] returns the serialised message and leaves no
    event behind: no SMTP call (and no log line), whatever host, port,
    username and password are. *)
Theorem send_test_mode `{Library} smtp self msg h :
  delivery self = Some "test" ->
  send smtp self msg h = (Return (VStr (as_string msg)), []).
Proof.
  intros D. unfold send. rewrite D. reflexivity.
Qed.

(** C1 (the code departs from the claim).  In SMTP mode, when an SMTP call
    of the transaction (connecting, setting the debug level, login, a
    submission, quit) raised [e], [send] catches [e] and logs it.  With
    debug on, or with a logger that takes the [file=] keyword, the log
    line is written (the traceback, or the one-line summary on stderr)
    and [send] returns [e].  With debug off and a logger that does not
    take [file=], as the default logger, the log call of the [except]
    branch raises: [send] raises that error instead of returning [e], and
    nothing is logged after the failed call. *)
Theorem send_returns_delivery_errors `{Library} smtp self msg h :
  delivery self = Some "smtp" ->
  (debug self = true \/ file_keyword (log self) = None ->
   (fst (send smtp self msg h) = Return VNone
    \/ exists e, fst (send smtp self msg h) = Return (VExc e))
   /\ forall c e,
        In (Smtp c (Some e)) (snd (send smtp self msg h)) ->
        fst (send smtp self msg h) = Return (VExc e)
        /\ exists evs,
             snd (send smtp self msg h)
             = (evs ++ [if debug self then Log None [LTraceback e]
                        else Log (Some stderr) [LStr "Emailer exception:"; LExc e]])%list)
  /\ (forall te,
        debug self = false -> file_keyword (log self) = Some te ->
        forall c e,
          In (Smtp c (Some e)) (snd (send smtp self msg h)) ->
          fst (send smtp self msg h) = Raise te
          /\ exists evs, snd (send smtp self msg h) = (evs ++ [Smtp c (Some e)])%list).
Proof.
  intros D. split.
  - intros Ok. split.
    + destruct (send_cases smtp self msg D h) as [E | (p & c & q & e & _ & E)];
        rewrite E; cbn [fst]; [now left|].
      destruct (handler_cases self e) as [(_ & -> & _) | (te & Dbg & Lg & _)].
      * right. now exists e.
      * destruct Ok; congruence.
    + intros c e Hin.
      destruct (raise_in_trace smtp self msg D h c e Hin) as (p & q & _ & -> & ->).
      destruct (handler_cases self e) as [(_ & -> & ->) | (te & Dbg & Lg & _)].
      * split; [reflexivity|].
        exists (from_log self msg ++ map ok_event p ++ [Smtp c (Some e)])%list.
        now rewrite <- !app_assoc.
      * destruct Ok; congruence.
  - intros te Dbg Lg c e Hin.
    destruct (raise_in_trace smtp self msg D h c e Hin) as (p & q & _ & -> & ->).
    destruct (handler_cases self e) as [(Ok & _) | (te' & _ & Lg' & -> & ->)].
    + destruct Ok; congruence.
    + replace te with te' by congruence. split; [reflexivity|].
      exists (from_log self msg ++ map ok_event p)%list.
      now rewrite <- !app_assoc.
Qed.

Lemma session_cut_sendmails `{Library} self msg p c q :
  session self msg = (p ++ Do c :: q)%list ->
  sendmails (map ok_event (p ++ [Do c]))
  = firstn (length (sendmails (map ok_event (p ++ [Do c]))))
      (map (fun r => (Email.getitem msg "From", r, as_string msg)) (tolist msg)).
Proof.
  intros S. rewrite <- (sendmails_session self msg), S.
  replace (p ++ Do c :: q)%list with ((p ++ [Do c]) ++ q)%list
    by now rewrite <- app_assoc.
  rewrite (map_app _ (p ++ [Do c])), sendmails_app.
  now rewrite firstn_length_app.
Qed.

(** C6.  In SMTP mode the recipient list is the To values, then the Cc
    values, then the Bcc values, without the entries that are [None], empty
    or whitespace-only.  The submissions [send] makes are always an initial
    part of that list, one call per entry in order, each with the From
    value and the serialised message; when the message is delivered
    ([send] returns [None]) they are the whole list, duplicates
    included. *)
Theorem send_submits_each_recipient `{Library} smtp self msg h :
  delivery self = Some "smtp" ->
  tolist msg
  = filter deliverable
      (Email.values msg "To" ++ Email.values msg "Cc" ++ Email.values msg "Bcc")
  /\ (forall a, deliverable a = true <-> exists s, a = Some s /\ all_space s = false)
  /\ (exists k,
        sendmails (snd (send smtp self msg h))
        = firstn k (map (fun r => (Email.getitem msg "From", r, as_string msg))
                        (tolist msg)))
  /\ (fst (send smtp self msg h) = Return VNone ->
      sendmails (snd (send smtp self msg h))
      = map (fun r => (Email.getitem msg "From", r, as_string msg)) (tolist msg)).
Proof.
  intros D. split; [|split; [exact deliverable_iff|]].
  { unfold tolist. now rewrite !or_nil_get_all. }
  destruct (send_cases smtp self msg D h) as [E | (p & c & q & e & S & E)];
    rewrite E; cbn [fst snd]; rewrite sendmails_app, sendmails_from_log, app_nil_l.
  - rewrite sendmails_session. split; [|reflexivity].
    eexists. symmetry. apply firstn_all.
  - split; [|intros R; now apply handler_result_not_None in R].
    rewrite sendmails_cut. eexists. apply (session_cut_sendmails _ _ _ _ _ S).
Qed.

(** C7 (the code departs from the claim in what it returns).  If a
    submission raises, no further submission is attempted: the
    submissions made are those for the recipients up to the failing one,
    and nothing follows the failed call in the trace but what the
    [except] branch logs.  With debug on, or with a logger that takes the
    [file=] keyword, [send] returns the caught exception; with debug off
    and a logger that does not take it, as the default logger, the log
    call raises and [send] raises that error instead. *)
Theorem send_aborts_at_first_failure `{Library} smtp self msg h pre f r b e post :
  delivery self = Some "smtp" ->
  snd (send smtp self msg h) = (pre ++ Smtp (sendmail f r b) (Some e) :: post)%list ->
  (exists rs1 rs2,
      tolist msg = (rs1 ++ r :: rs2)%list
      /\ sendmails (snd (send smtp self msg h))
         = map (fun r => (Email.getitem msg "From", r, as_string msg)) (rs1 ++ [r]))
  /\ Forall (fun ev => is_smtp ev = false) post
  /\ (debug self = true \/ file_keyword (log self) = None ->
      fst (send smtp self msg h) = Return (VExc e)
      /\ post = [failure_log (debug self) e])
  /\ (forall te,
        debug self = false -> file_keyword (log self) = Some te ->
        fst (send smtp self msg h) = Raise te /\ post = []).
Proof.
  intros D T.
  destruct (raise_position smtp self msg D h pre _ e post T)
    as (p & q & S & -> & -> & R).
  rewrite T, R. split; [|split; [|split]].
  - apply session_split in S
      as [(_ & [=]) | [(_ & [=]) | [(u & pw & _ & _ & _ & [=])
         | [(rs1 & r' & rs2 & T1 & [= -> -> ->] & ->) | ([=] & _)]]]].
    exists rs1, rs2. split; [exact T1|].
    rewrite <- app_assoc, sendmails_app, sendmails_from_log, sendmails_cut, app_nil_l.
    rewrite <- !app_assoc. rewrite !map_app, !sendmails_app.
    rewrite sendmails_auth, sendmails_loop.
    unfold to_log. destruct (debug self); reflexivity.
  - apply Forall_forall. intros ev. apply handler_log_no_smtp.
  - intros Ok. destruct (handler_cases self e) as [(_ & -> & ->) | (te & Dbg & Lg & _)];
      [auto | destruct Ok; congruence].
  - intros te Dbg Lg.
    destruct (handler_cases self e) as [(Ok & _) | (te' & _ & Lg' & -> & ->)];
      [destruct Ok; congruence|].
    replace te with te' by congruence. auto.
Qed.

(** ** Where the login sits *)

Section Login.

Context `{Library}.
Variable self : TextMailer.
Variable msg : Message.

Lemma nl_from_log : Forall (fun ev => is_login ev = false) (from_log self msg).
Proof. unfold from_log. destruct (debug self); repeat constructor. Qed.

Lemma nl_to_log r : Forall (fun ev => is_login ev = false) (map ok_event (to_log self r)).
Proof. unfold to_log. destruct (debug self); repeat constructor. Qed.

Lemma nl_failure_log e : is_login (failure_log (debug self) e) = false.
Proof. unfold failure_log. now destruct (debug self). Qed.

Lemma nl_handler_log e : Forall (fun ev => is_login ev = false) (handler_log self e).
Proof.
  apply Forall_forall. intros ev Hin. apply handler_log_no_smtp in Hin.
  now destruct ev as [[]|].
Qed.

Lemma nl_loop rs : Forall (fun ev => is_login ev = false) (map ok_event (flat_map (visit self msg) rs)).
Proof.
  induction rs as [|r rs IH]; simpl; [constructor|].
  rewrite map_app. apply Forall_app. split; [|exact IH].
  unfold visit. rewrite map_app. apply Forall_app. split; [apply nl_to_log|].
  repeat constructor.
Qed.

End Login.

Ltac no_login :=
  repeat first
    [ apply Forall_nil
    | apply nl_from_log
    | apply nl_loop
    | apply nl_to_log
    | apply nl_handler_log
    | apply Forall_app; split
    | rewrite map_app
    | apply Forall_cons; [first [reflexivity | apply nl_failure_log]|] ].

Section LoginShape.

Context `{Library}.
Variable smtp : smtp_oracle.
Variable self : TextMailer.
Variable msg : Message.
Hypothesis smtp_mode : delivery self = Some "smtp".

(** Either the trace has no login at all, because a credential is
    missing or the session was not opened; or the login comes right
    after the connection and the debug level, once. *)
Lemma login_shape h :
  (Forall (fun ev => is_login ev = false) (snd (send smtp self msg h))
   /\ ((username self = None \/ password self = None)
       \/ forall lvl, ~ In (Smtp (set_debuglevel lvl) None) (snd (send smtp self msg h))))
  \/ exists u pw o B,
       username self = Some u /\ password self = Some pw
       /\ snd (send smtp self msg h)
          = ((from_log self msg
              ++ [Smtp (SMTP (Py.or_str (host self) "127.0.0.1") (port self)) None;
                  Smtp (set_debuglevel (if debug self then 1 else 0)) None])
             ++ Smtp (login u pw) o :: B)%list
       /\ Forall (fun ev => is_login ev = false) B.
Proof.
  destruct (send_cases smtp self msg smtp_mode h) as [E | (p & c & q & e & S & E)];
    rewrite E; cbn [fst snd]; clear E.
  - unfold session.
    destruct (username self) as [u|] eqn:U, (password self) as [pw|] eqn:P;
      [right; exists u, pw, None; eexists; repeat split;
         [unfold auth_steps; rewrite U, P; simpl; rewrite <- app_assoc; reflexivity
         | no_login]
      | left; split; [unfold auth_steps; rewrite U, ?P; simpl; no_login | auto] ..].
  - apply session_split in S
      as [(-> & [= ->]) | [(-> & ->) | [(u & pw & U & P & -> & ->)
         | [(rs1 & r & rs2 & _ & -> & ->) | (-> & ->)]]]].
    + left. split; [no_login|]. right. intros lvl Hin.
      apply in_app_or in Hin as [Hin | [[=] | Hin]].
      * now apply from_log_no_smtp in Hin.
      * now apply handler_log_no_smtp in Hin.
    + left. split; [no_login|]. right. intros lvl Hin.
      apply in_app_or in Hin as [Hin | [[=] | [[=] | Hin]]].
      * now apply from_log_no_smtp in Hin.
      * now apply handler_log_no_smtp in Hin.
    + right. exists u, pw, (Some e), (handler_log self e).
      repeat split; try assumption.
      * simpl. now rewrite <- app_assoc.
      * no_login.
    + destruct (username self) as [u|] eqn:U, (password self) as [pw|] eqn:P;
        [right; exists u, pw, None; eexists; repeat split;
           [unfold auth_steps; rewrite U, P; simpl; rewrite <- app_assoc; reflexivity
           | no_login]
        | left; split; [unfold auth_steps; rewrite U, ?P; simpl; no_login | auto] ..].
    + destruct (username self) as [u|] eqn:U, (password self) as [pw|] eqn:P;
        [right; exists u, pw, None; eexists; repeat split;
           [unfold auth_steps; rewrite U, P; simpl; rewrite <- app_assoc; reflexivity
           | no_login]
        | left; split; [unfold auth_steps; rewrite U, ?P; simpl; no_login | auto] ..].
Qed.

End LoginShape.

(** C8.  In SMTP mode a login call occurs only if both username and
    password are set, and then with those two values; if both are set and
    the session was opened (the debug level was set without raising), the
    login call is made.  A login call stands right after the connection
    and the debug level, hence after the connection is opened and before
    every submission, and no second login follows. *)
Theorem send_login_iff_credentials `{Library} smtp self msg h :
  delivery self = Some "smtp" ->
  (forall u pw o,
      In (Smtp (login u pw) o) (snd (send smtp self msg h)) ->
      username self = Some u /\ password self = Some pw)
  /\ (forall u pw lvl,
        username self = Some u -> password self = Some pw ->
        In (Smtp (set_debuglevel lvl) None) (snd (send smtp self msg h)) ->
        exists o, In (Smtp (login u pw) o) (snd (send smtp self msg h)))
  /\ (forall pre u pw o post,
        snd (send smtp self msg h) = (pre ++ Smtp (login u pw) o :: post)%list ->
        pre = (from_log self msg
               ++ [Smtp (SMTP (Py.or_str (host self) "127.0.0.1") (port self)) None;
                   Smtp (set_debuglevel (if debug self then 1 else 0)) None])%list
        /\ (forall ev, In ev pre -> is_sendmail ev = false)
        /\ (forall ev, In ev post -> is_login ev = false)).
Proof.
  intros D.
  destruct (login_shape smtp self msg D h)
    as [(NoLogin & Why) | (u0 & pw0 & o0 & B & U & P & T & HB)].
  - rewrite Forall_forall in NoLogin.
    assert (Never : forall u pw o,
               ~ In (Smtp (login u pw) o) (snd (send smtp self msg h))).
    { intros u pw o Hin. apply NoLogin in Hin. discriminate. }
    split; [|split].
    + intros u pw o Hin. now apply Never in Hin.
    + intros u pw lvl U P Hin. destruct Why as [[W | W] | W]; try congruence.
      now apply W in Hin.
    + intros pre u pw o post T. exfalso. apply (Never u pw o).
      rewrite T. apply in_elt.
  - assert (A : Forall (fun ev => is_login ev = false)
                  (from_log self msg
                   ++ [Smtp (SMTP (Py.or_str (host self) "127.0.0.1") (port self)) None;
                       Smtp (set_debuglevel (if debug self then 1 else 0)) None])).
    { no_login. }
    rewrite Forall_forall in A, HB.
    assert (Only : forall u pw o,
               In (Smtp (login u pw) o) (snd (send smtp self msg h)) ->
               u = u0 /\ pw = pw0).
    { intros u pw o Hin. rewrite T in Hin.
      apply in_app_or in Hin as [Hin | [[= -> -> _] | Hin]].
      - apply A in Hin. discriminate.
      - auto.
      - apply HB in Hin. discriminate. }
    split; [|split].
    + intros u pw o Hin. apply Only in Hin as [-> ->]. auto.
    + intros u pw lvl U' P' _. exists o0. rewrite T.
      replace u with u0 by congruence. replace pw with pw0 by congruence.
      apply in_elt.
    + intros pre u pw o post T'. rewrite T in T'.
      apply (unique_split is_login) in T' as (<- & _ & <-);
        [|reflexivity | exact A | exact HB].
      split; [reflexivity|]. split; [|exact HB].
      intros ev Hin. apply in_app_or in Hin as [Hin | [<- | [<- | []]]];
        try reflexivity.
      apply from_log_no_smtp in Hin. now destruct ev as [[]|].
Qed.


(** ** The claims on sample inputs *)

Section Examples.

Import Samples.

Example split_sample :
  Py.split Py.comma " a@x.com ,, b@y.com , " = [" a@x.com "; ""; " b@y.com "; " "].
Proof. reflexivity. Qed.

Example trimmed_tokens_sample :
  trimmed_tokens " a@x.com ,, b@y.com , " = ["a@x.com"; "b@y.com"].
Proof. reflexivity. Qed.

Example tolist_sample :
  tolist letter = [Some "a@x.com"; Some "b@y.com"; Some "a@x.com"].
Proof. reflexivity. Qed.

Example text_becomes_body :
  exists msg,
    message (mailer "test" None None) None (VStr "hello") None None None None None []
    = Return msg
    /\ Email.payload msg = "hello"
    /\ Email.values msg "To" = [Some "default@x.com"].
Proof. eexists. repeat split. Qed.

(** A whole run with debug on: the second recipient is refused, the third
    is never tried, the traceback is logged and the exception returned. *)
Example verbose_run :
  send (refusing "b@y.com") verbose letter []
  = (Return (VExc (refused "b@y.com")),
     [Log None [LStr "From ="; LVal (Some "me@x.com")];
      Smtp (SMTP "127.0.0.1" (Some 2525%Z)) None;
      Smtp (set_debuglevel 1) None;
      Smtp (login "user" "secret") None;
      Log None [LStr "To ="; LVal (Some "a@x.com")];
      Smtp (sendmail (Some "me@x.com") (Some "a@x.com") (as_string letter)) None;
      Log None [LStr "To ="; LVal (Some "b@y.com")];
      Smtp (sendmail (Some "me@x.com") (Some "b@y.com") (as_string letter))
           (Some (refused "b@y.com"));
      Log None [LTraceback (refused "b@y.com")]]).
Proof. reflexivity. Qed.

(** When the server cannot be reached the session stops at the first
    call: credentials or not, nothing else is attempted.  With a logger
    that takes [file=] the failure is logged and returned. *)
Example unreachable_run :
  send unreachable (with_log recording (mailer "smtp" (Some "user") (Some "secret")))
    letter []
  = (Return (VExc (mkExn "ConnectionRefusedError" "Connection refused")),
     [Smtp (SMTP "mail.x.com" None)
           (Some (mkExn "ConnectionRefusedError" "Connection refused"));
      Log (Some stderr)
          [LStr "Emailer exception:";
           LExc (mkExn "ConnectionRefusedError" "Connection refused")]]).
Proof. reflexivity. Qed.

(** With the default logger and debug off, the same failure makes [send]
    raise the logger's [TypeError]. *)
Example unreachable_run_default_logger :
  send unreachable (mailer "smtp" (Some "user") (Some "secret")) letter []
  = (Raise (mkExn "TypeError" "got an unexpected keyword argument 'file'"),
     [Smtp (SMTP "mail.x.com" None)
           (Some (mkExn "ConnectionRefusedError" "Connection refused"))]).
Proof. reflexivity. Qed.

(** A text that is not ASCII is stored as the base64 of its UTF-8
    bytes. *)
Example payload_sample :
  Email.payload (Email.MIMEText_str (String (ascii_of_nat 233) "t"%string)) = "w6l0" ++ Email.newline.
Proof. reflexivity. Qed.

(** An unknown delivery mode does nothing and returns [None]. *)
Example unknown_mode_run :
  send accepting (mailer "queue" None None) letter [] = (Return VNone, []).
Proof. reflexivity. Qed.

Lemma send_returns_delivery_errors_witness :
  fst (send (refusing "b@y.com") (mailer "smtp" None None) letter [])
  = Raise (mkExn "TypeError" "got an unexpected keyword argument 'file'")
  /\ exists evs,
       snd (send (refusing "b@y.com") (mailer "smtp" None None) letter [])
       = (evs ++ [Smtp (sendmail (Some "me@x.com") (Some "b@y.com") (as_string letter))
                    (Some (refused "b@y.com"))])%list.
Proof.
  apply (proj2 (send_returns_delivery_errors (refusing "b@y.com")
                  (mailer "smtp" None None) letter [] eq_refl)
           (mkExn "TypeError" "got an unexpected keyword argument 'file'")
           eq_refl eq_refl
           (sendmail (Some "me@x.com") (Some "b@y.com") (as_string letter))
           (refused "b@y.com")).
  vm_compute. tauto.
Defined.

Lemma send_test_mode_witness :
  send unreachable (mailer "test" (Some "user") None) letter []
  = (Return (VStr (as_string letter)), []).
Proof. apply send_test_mode. reflexivity. Defined.

Lemma render_failure_falls_back_witness :
  render (mailer "test" None None) (TObject broken_render) []
  = as_text (Template.generate broken_render []).
Proof.
  apply (render_failure_falls_back (mailer "test" None None) (TObject broken_render)
           broken_render [] (mkExn "KeyError" "name")); reflexivity.
Defined.

(** The claim C3 as stated fails: a [KeyError] raised by the primary
    capability, which is no unsupported-operation signal, is swallowed and
    the caller gets the output of [generate]. *)
Lemma render_propagation_counterexample :
  Template.render broken_render [] = Raise (mkExn "KeyError" "name")
  /\ unsupported (mkExn "KeyError" "name") = false
  /\ render (mailer "test" None None) (TObject broken_render) []
     = Return (VStr "fallback")
  /\ render (mailer "test" None None) (TObject broken_render) []
     <> Raise (mkExn "KeyError" "name").
Proof. repeat split. discriminate. Qed.

Lemma render_name_without_loader_witness :
  render (mailer "test" None None) (TName "welcome.txt") []
  = Raise (AttributeError "'str' object has no attribute 'generate'").
Proof. apply render_name_without_loader. reflexivity. Defined.

(** The claim C4 as stated fails: the failure is an [AttributeError], not
    a configuration error. *)
Lemma render_name_counterexample :
  loader (mailer "test" None None) = None
  /\ exists e,
       render (mailer "test" None None) (TName "welcome.txt") [] = Raise e
       /\ exn_class e = "AttributeError"
       /\ exn_class e <> "ConfigurationError".
Proof.
  split; [reflexivity|]. eexists. split; [reflexivity|].
  split; [reflexivity | discriminate].
Qed.

Lemma message_address_headers_witness :
  exists msg,
    message (mailer "test" None None) None (VStr "hello")
      (Some " a@x.com ,, b@y.com , ") None None (Some " , ") None [] = Return msg
    /\ Email.values msg "To" = map Some (trimmed_tokens " a@x.com ,, b@y.com , ")
    /\ Email.values msg "Cc" = map Some (trimmed_tokens " , ").
Proof.
  destruct (message_address_headers (mailer "test" None None) None (VStr "hello")
              (Some " a@x.com ,, b@y.com , ") None None (Some " , ") None [])
    as (Headers & Returns & _).
  destruct (Returns "hello" eq_refl eq_refl) as [msg E].
  exists msg. split; [exact E|].
  destruct (Headers msg E) as (HTo & HCc & _).
  split.
  - apply HTo; [reflexivity | left; discriminate].
  - apply HCc. reflexivity.
Defined.

(** The claim C5 as stated fails for an empty To string: its only token is
    empty, yet the message gets the default address as To header. *)
Lemma message_empty_to_counterexample :
  exists msg,
    message (mailer "test" None None) None (VStr "hello") (Some "") None None None None []
    = Return msg
    /\ trimmed_tokens "" = []
    /\ Email.values msg "To" = [Some "default@x.com"]
    /\ Email.values msg "To" <> map Some (trimmed_tokens "").
Proof. eexists. repeat split. discriminate. Qed.

Lemma message_empty_to_is_absent_witness :
  exists msg,
    message (mailer "test" None None) None (VStr "hello") (Some "") None None None None []
    = Return msg
    /\ message (mailer "test" None None) None (VStr "hello") None None None None None []
       = Return msg
    /\ Email.values msg "To" = [Some "default@x.com"].
Proof.
  exact (proj2 (proj2 (message_empty_to_is_absent (mailer "test" None None) None
                         (VStr "hello") None None None None [] "default@x.com"
                         eq_refl ltac:(discriminate)))
           "hello" eq_refl).
Defined.

Lemma render_unsupported_fallback_witness :
  render (mailer "test" None None) (TObject streaming) [] = Return (VStr "hi").
Proof.
  exact (proj2 (render_unsupported_fallback (mailer "test" None None)
                  (TObject streaming) streaming []
                  (AttributeError "'Stream' object has no attribute 'render'")
                  eq_refl eq_refl eq_refl)
           [Byte.x68; Byte.x69] eq_refl).
Defined.

Lemma send_submits_each_recipient_witness :
  sendmails (snd (send accepting (mailer "smtp" None None) letter []))
  = [(Some "me@x.com", Some "a@x.com", as_string letter);
     (Some "me@x.com", Some "b@y.com", as_string letter);
     (Some "me@x.com", Some "a@x.com", as_string letter)].
Proof.
  apply (proj2 (proj2 (proj2 (send_submits_each_recipient accepting
                                (mailer "smtp" None None) letter [] eq_refl)))).
  reflexivity.
Defined.

Lemma send_aborts_at_first_failure_witness :
  (exists rs1 rs2,
      tolist letter = (rs1 ++ Some "b@y.com" :: rs2)%list
      /\ sendmails (snd (send (refusing "b@y.com") (mailer "smtp" None None) letter []))
         = map (fun r => (Email.getitem letter "From", r, as_string letter))
               (rs1 ++ [Some "b@y.com"]))
  /\ fst (send (refusing "b@y.com") (mailer "smtp" None None) letter [])
     = Raise (mkExn "TypeError" "got an unexpected keyword argument 'file'").
Proof.
  destruct (send_aborts_at_first_failure (refusing "b@y.com") (mailer "smtp" None None)
              letter []
              [Smtp (SMTP "mail.x.com" None) None; Smtp (set_debuglevel 0) None;
               Smtp (sendmail (Some "me@x.com") (Some "a@x.com") (as_string letter)) None]
              (Some "me@x.com") (Some "b@y.com") (as_string letter) (refused "b@y.com")
              [] eq_refl eq_refl)
    as (Stops & _ & _ & Escapes).
  split; [exact Stops|].
  exact (proj1 (Escapes (mkExn "TypeError" "got an unexpected keyword argument 'file'")
                  eq_refl eq_refl)).
Defined.

Lemma send_login_iff_credentials_witness :
  exists o,
    In (Smtp (login "user" "secret") o)
       (snd (send accepting (mailer "smtp" (Some "user") (Some "secret")) letter [])).
Proof.
  apply (proj1 (proj2 (send_login_iff_credentials accepting
                         (mailer "smtp" (Some "user") (Some "secret")) letter []
                         eq_refl))
           "user" "secret" 0%Z eq_refl eq_refl).
  vm_compute. tauto.
Defined.

End Examples.


(** * Further properties of the mailer *)

(** ** The shape of a built message *)

Section Built.

Context `{Library}.

Lemma headers_add_each field l : forall msg,
  Email.headers
    (fold_left (fun msg addr => Email.add_header msg field (Py.strip addr)) l msg)
  = (Email.headers msg ++ map (fun a => (field, Some (Py.strip a))) l)%list
  /\ Email.payload
       (fold_left (fun msg addr => Email.add_header msg field (Py.strip addr)) l msg)
     = Email.payload msg.
Proof.
  induction l as [|a l IH]; intros msg; simpl.
  - now rewrite app_nil_r.
  - destruct (IH (Email.add_header msg field (Py.strip a))) as [Hh Hp].
    rewrite Hh, Hp. simpl. now rewrite <- app_assoc.
Qed.

Lemma add_addresses_shape msg field s :
  Email.headers (add_addresses msg field s)
  = (Email.headers msg ++ map (fun t => (field, Some t)) (trimmed_tokens s))%list
  /\ Email.payload (add_addresses msg field s) = Email.payload msg.
Proof.
  unfold add_addresses.
  destruct (headers_add_each field
              (filter (fun addr => negb (String.eqb (Py.strip addr) ""))
                      (Py.split Py.comma s)) msg) as [Hh Hp].
  rewrite Hh, Hp. split; [|reflexivity]. f_equal.
  unfold trimmed_tokens. rewrite <- strip_kept_tokens, map_map. reflexivity.
Qed.

(** The text [message] hands to [MIMEText]. *)
Lemma message_shape self template text to_addr subject from_addr cc bcc ctx msg :
  message self template text to_addr subject from_addr cc bcc ctx = Return msg ->
  exists body,
    match template with
    | Some tpl =>
        render self tpl (render_context self to_addr from_addr cc bcc ctx)
        = Return (VStr body)
    | None => text = VStr body
    end
    /\ Email.payload msg = Email.payload (Email.MIMEText_str body)
    /\ Email.headers msg
       = (Email.headers (Email.MIMEText_str body)
          ++ [("From", Py.or_ from_addr (from_address self)); ("Subject", subject)]
          ++ map (fun t => ("To", Some t))
                 (trimmed_tokens (Py.or_str (Py.or_ to_addr (to_address self)) ""))
          ++ map (fun t => ("Cc", Some t)) (trimmed_tokens (Py.or_str cc ""))
          ++ map (fun t => ("Bcc", Some t)) (trimmed_tokens (Py.or_str bcc "")))%list.
Proof.
  unfold message, render_context.
  destruct (match template with Some _ => _ | None => _ end) as [e|txt] eqn:T; simpl;
    [discriminate|].
  destruct txt as [|body| | |]; simpl; try discriminate.
  intros [= <-]. exists body. split.
  { destruct template; [exact T | now injection T as ->]. }
  repeat match goal with
         | |- context [add_addresses ?m ?f ?s] =>
             let Hh := fresh "Hh" in
             let Hp := fresh "Hp" in
             destruct (add_addresses_shape m f s) as [Hh Hp];
             rewrite ?Hh, ?Hp; clear Hh Hp
         end.
  split; [reflexivity|]. simpl. rewrite <- !app_assoc. reflexivity.
Qed.

Lemma tokens_deliverable s :
  filter deliverable (map Some (trimmed_tokens s)) = map Some (trimmed_tokens s).
Proof.
  assert (G : forall l, (forall t, In t l -> t <> "" /\ Py.strip t = t) ->
                        filter deliverable (map Some l) = map Some l).
  { induction l as [|t l IH]; intros Hl; simpl; [reflexivity|].
    destruct (Hl t (or_introl eq_refl)) as [Hne Hs]. rewrite Hs.
    destruct (String.eqb_spec t ""); [contradiction|]. simpl.
    f_equal. apply IH. intros t' Ht'. apply Hl. now right. }
  apply G. intros t Ht. apply trimmed_tokens_trimmed in Ht. tauto.
Qed.

End Built.

(** X1.  A message that [message] returns is fully determined.  Its
    payload is the one [MIMEText] makes of the given text (or of the
    rendered template): the text itself when it is ASCII.  Its headers are
    the three MIME headers, one From (the argument, or the default when
    the argument is absent or empty), one Subject (as given, [None]
    included), then the To, the Cc and the Bcc addresses, in that
    order. *)
Theorem message_closed_form `{Library} self template text to_addr subject from_addr
    cc bcc ctx msg :
  message self template text to_addr subject from_addr cc bcc ctx = Return msg ->
  exists body,
    match template with
    | Some tpl =>
        render self tpl (render_context self to_addr from_addr cc bcc ctx)
        = Return (VStr body)
    | None => text = VStr body
    end
    /\ Email.payload msg = Email.payload (Email.MIMEText_str body)
    /\ (Email.is_ascii body = true -> Email.payload msg = body)
    /\ Email.headers msg
       = (Email.headers (Email.MIMEText_str body)
          ++ [("From", Py.or_ from_addr (from_address self)); ("Subject", subject)]
          ++ map (fun t => ("To", Some t))
                 (trimmed_tokens (Py.or_str (Py.or_ to_addr (to_address self)) ""))
          ++ map (fun t => ("Cc", Some t)) (trimmed_tokens (Py.or_str cc ""))
          ++ map (fun t => ("Bcc", Some t)) (trimmed_tokens (Py.or_str bcc "")))%list.
Proof.
  intros E. apply message_shape in E as (body & Hb & Hp & Hh).
  exists body. split; [exact Hb|]. split; [exact Hp|]. split; [|exact Hh].
  intros A. rewrite Hp. unfold Email.MIMEText_str. simpl. now rewrite A.
Qed.

(** X2.  Every To, Cc and Bcc header of a built message holds an address
    that is not empty, has no surrounding whitespace and no comma. *)
Theorem message_addresses_clean `{Library} self template text to_addr subject
    from_addr cc bcc ctx msg name v :
  message self template text to_addr subject from_addr cc bcc ctx = Return msg ->
  In name ["To"; "Cc"; "Bcc"] ->
  In v (Email.values msg name) ->
  exists t, v = Some t /\ clean t.
Proof.
  intros E Hname Hv. apply message_values in E as (HTo & HCc & HBcc).
  assert (G : forall s, In v (map Some (trimmed_tokens s)) -> exists t, v = Some t /\ clean t).
  { intros s Hin. apply in_map_iff in Hin as (t & <- & Ht).
    exists t. split; [reflexivity|]. now apply trimmed_tokens_trimmed in Ht. }
  destruct Hname as [<- | [<- | [<- | []]]].
  - rewrite HTo in Hv. eapply G, Hv.
  - rewrite HCc in Hv. eapply G, Hv.
  - rewrite HBcc in Hv. eapply G, Hv.
Qed.


Lemma built_tolist `{Library} self template text to_addr subject from_addr cc bcc
    ctx msg :
  message self template text to_addr subject from_addr cc bcc ctx = Return msg ->
  tolist msg
  = map Some
      (trimmed_tokens (Py.or_str (Py.or_ to_addr (to_address self)) "")
       ++ trimmed_tokens (Py.or_str cc "")
       ++ trimmed_tokens (Py.or_str bcc ""))%list.
Proof.
  intros E. apply message_values in E as (HTo & HCc & HBcc).
  unfold tolist. rewrite !or_nil_get_all, HTo, HCc, HBcc.
  rewrite !filter_app, !tokens_deliverable, !map_app. reflexivity.
Qed.

Lemma built_from `{Library} self template text to_addr subject from_addr cc bcc ctx msg :
  message self template text to_addr subject from_addr cc bcc ctx = Return msg ->
  Email.getitem msg "From" = Py.or_ from_addr (from_address self).
Proof.
  intros E. apply message_shape in E as (body & _ & _ & Hh).
  unfold Email.getitem. rewrite Hh. reflexivity.
Qed.

(** X4.  The recipients [send] finds in a message built by [message] are
    exactly its To, Cc and Bcc addresses, in that order, none dropped; and
    the envelope sender it reads is the From argument, or the default. *)
Theorem built_message_recipients `{Library} self template text to_addr subject
    from_addr cc bcc ctx msg :
  message self template text to_addr subject from_addr cc bcc ctx = Return msg ->
  tolist msg
  = map Some
      (trimmed_tokens (Py.or_str (Py.or_ to_addr (to_address self)) "")
       ++ trimmed_tokens (Py.or_str cc "")
       ++ trimmed_tokens (Py.or_str bcc ""))%list
  /\ Email.getitem msg "From" = Py.or_ from_addr (from_address self).
Proof.
  intros E. split; [now apply built_tolist in E | now apply built_from in E].
Qed.

(** ** Joining and splitting addresses *)

Lemma split_no_sep_one sep t : mem sep t = false -> Py.split sep t = [t].
Proof.
  induction t as [|c r IH]; simpl; [reflexivity|].
  intros M. apply orb_false_iff in M as [M1 M2].
  rewrite M1, (IH M2). reflexivity.
Qed.

Lemma split_app_sep sep t r :
  mem sep t = false ->
  Py.split sep (t ++ String sep r) = t :: Py.split sep r.
Proof.
  induction t as [|c t IH]; simpl; intros M.
  - now rewrite Ascii.eqb_refl.
  - apply orb_false_iff in M as [M1 M2]. rewrite M1, (IH M2). reflexivity.
Qed.

(** A space after a comma is trimmed away with its token. *)
Lemma trimmed_tokens_space r : trimmed_tokens (String " " r) = trimmed_tokens r.
Proof.
  unfold trimmed_tokens. simpl.
  pose proof (split_not_nil Py.comma r) as NE.
  destruct (Py.split Py.comma r) as [|t ts]; [contradiction|]. reflexivity.
Qed.

Lemma trimmed_tokens_cons t r :
  mem Py.comma t = false ->
  trimmed_tokens (t ++ String Py.comma r)
  = ((if Py.is_empty (Py.strip t) then [] else [Py.strip t]) ++ trimmed_tokens r)%list.
Proof.
  intros Hm. unfold trimmed_tokens.
  rewrite (split_app_sep Py.comma t r Hm). simpl.
  now destruct (Py.is_empty (Py.strip t)).
Qed.

Lemma trimmed_tokens_join l :
  Forall clean l -> trimmed_tokens (join_with ", " l) = l.
Proof.
  induction 1 as [|t l (Hne & Hs & Hm) Hl IH]; [reflexivity|].
  destruct l as [|t2 ts].
  - simpl. unfold trimmed_tokens. rewrite (split_no_sep_one _ _ Hm). simpl.
    rewrite Hs. destruct t; [contradiction | reflexivity].
  - change (join_with ", " (t :: t2 :: ts))
      with (t ++ String Py.comma (String " " (join_with ", " (t2 :: ts)))).
    rewrite (trimmed_tokens_cons _ _ Hm), trimmed_tokens_space, IH, Hs.
    destruct t; [contradiction | reflexivity].
Qed.

(** X5.  Addresses joined with [", "] and given as Cc come back as the Cc
    headers, one each, provided each address is itself clean. *)
Theorem joined_addresses_round_trip `{Library} self template text to_addr subject
    from_addr bcc ctx msg l :
  Forall clean l ->
  message self template text to_addr subject from_addr (Some (join_with ", " l)) bcc ctx
  = Return msg ->
  Email.values msg "Cc" = map Some l.
Proof.
  intros Hl E. apply message_values in E as (_ & HCc & _).
  rewrite HCc, or_str_some, (trimmed_tokens_join _ Hl). reflexivity.
Qed.

(** ** Rendering, continued *)

(** X6.  [render] never returns bytes: whatever the template methods
    produce, a bytes result has been decoded before it is returned. *)
Theorem render_never_bytes `{Library} self template ctx v :
  render self template ctx = Return v -> forall b, v <> VBytes b.
Proof.
  unfold render.
  destruct (match template, loader self with
            | TName name, Some ld => ld name
            | TName name, None => Return (Template.of_str name)
            | TObject tpl, _ => Return tpl
            end) as [e|tpl]; simpl; [discriminate|].
  destruct (match Template.render tpl ctx with
            | Return r => Return r
            | Raise _ => Template.generate tpl ctx
            end) as [e|r]; simpl; [discriminate|].
  destruct r; try (intros [= <-]; discriminate).
  destruct (decode_utf8 b); simpl; [discriminate|].
  intros [= <-]. discriminate.
Qed.

(** X7.  A mailer constructed with a template path resolves a template
    name through the loader built for that path: when loading fails the
    failure reaches the caller as it is (neither template method is
    tried), and when it succeeds rendering the name is rendering the
    loaded template. *)
Theorem render_by_name_uses_loader `{Library} loader_class Email path name ctx :
  template_path Email = Some path ->
  (forall e, loader_class path name = Raise e ->
             render (init loader_class Email) (TName name) ctx = Raise e)
  /\ (forall tpl, loader_class path name = Return tpl ->
                  render (init loader_class Email) (TName name) ctx
                  = render (init loader_class Email) (TObject tpl) ctx).
Proof.
  intros P. unfold init, render. rewrite P. simpl. split.
  - intros e ->. reflexivity.
  - intros tpl ->. reflexivity.
Qed.

(** ** Building and sending in one call *)

Lemma send_message_built `{Library} smtp self template to_addr subject from_addr cc bcc
    ctx h msg :
  message self template (text_keyword ctx) to_addr subject from_addr cc bcc
    (kw_del "text" ctx) = Return msg ->
  send_message smtp self template to_addr subject from_addr cc bcc ctx h
  = send smtp self msg h.
Proof.
  intros E. unfold send_message, bind, lift. rewrite E, app_nil_r.
  now destruct (send smtp self msg h).
Qed.


(** X9.  A template that cannot be rendered makes [send_message] raise:
    when [render] and then [generate] fail on the context [message]
    builds, the failure of [generate] reaches the caller, in SMTP mode
    too, and nothing is sent or logged. *)
Theorem send_message_render_failure `{Library} smtp self template tpl to_addr subject
    from_addr cc bcc ctx h e1 e2 :
  resolves self template tpl ->
  Template.render tpl (render_context self to_addr from_addr cc bcc (kw_del "text" ctx))
  = Raise e1 ->
  Template.generate tpl (render_context self to_addr from_addr cc bcc (kw_del "text" ctx))
  = Raise e2 ->
  send_message smtp self (Some template) to_addr subject from_addr cc bcc ctx h
  = (Raise e2, []).
Proof.
  intros R E1 E2. unfold send_message, bind, lift, message.
  fold (render_context self to_addr from_addr cc bcc (kw_del "text" ctx)).
  rewrite (render_resolved _ _ _ _ R), E1, E2. reflexivity.
Qed.

(** X10.  When [send_message] in SMTP mode returns [None], it has built
    the message (from the template, or from the [text=] keyword) and
    submitted it once per address of to (or the default), cc and bcc, in
    that order, each time from the From argument (or the default) and
    with the message's serialised text. *)
Theorem send_message_delivers `{Library} smtp self template to_addr subject from_addr
    cc bcc ctx h tr :
  delivery self = Some "smtp" ->
  send_message smtp self template to_addr subject from_addr cc bcc ctx h
  = (Return VNone, tr) ->
  exists msg,
    message self template (text_keyword ctx) to_addr subject from_addr cc bcc
      (kw_del "text" ctx) = Return msg
    /\ sendmails tr
       = map (fun t => (Py.or_ from_addr (from_address self), Some t, as_string msg))
           (trimmed_tokens (Py.or_str (Py.or_ to_addr (to_address self)) "")
            ++ trimmed_tokens (Py.or_str cc "")
            ++ trimmed_tokens (Py.or_str bcc ""))%list.
Proof.
  intros D.
  destruct (message self template (text_keyword ctx) to_addr subject from_addr cc bcc
              (kw_del "text" ctx)) as [e|msg] eqn:E.
  { unfold send_message, bind, lift. rewrite E. discriminate. }
  rewrite (send_message_built _ _ _ _ _ _ _ _ _ _ _ E).
  destruct (send_cases smtp self msg D h) as [S | (p & c & q & e & _ & S)]; rewrite S.
  - intros [= <-]. exists msg. split; [reflexivity|].
    change (sendmails (from_log self msg ++ map ok_event (session self msg))
            = map (fun t => (Py.or_ from_addr (from_address self), Some t, as_string msg))
                (trimmed_tokens (Py.or_str (Py.or_ to_addr (to_address self)) "")
                 ++ trimmed_tokens (Py.or_str cc "")
                 ++ trimmed_tokens (Py.or_str bcc ""))%list).
    rewrite sendmails_app, sendmails_from_log, app_nil_l, sendmails_session.
    rewrite (built_tolist _ _ _ _ _ _ _ _ _ _ E), (built_from _ _ _ _ _ _ _ _ _ _ E).
    rewrite map_map. reflexivity.
  - intros [= R _]. now apply handler_result_not_None in R.
Qed.

(** ** The delivery transaction, continued *)

(** X11.  A delivery mode other than ['test'] and ['smtp'], an unset one
    included, makes [send] do nothing: it returns [None] without any SMTP
    call or log line. *)
Theorem send_unknown_mode `{Library} smtp self msg h :
  delivery self <> Some "test" ->
  delivery self <> Some "smtp" ->
  send smtp self msg h = (Return VNone, []).
Proof.
  intros NT NS. unfold send.
  destruct (delivery self) as [d|]; simpl; [|reflexivity].
  destruct (String.eqb_spec d "test") as [->|_]; [contradiction|].
  destruct (String.eqb_spec d "smtp") as [->|_]; [contradiction|].
  reflexivity.
Qed.

(** X12.  In SMTP mode the first call that raises, whichever it is, ends
    the transaction: every event before it went well and no SMTP call
    follows it.  What follows is the one log line of the [except] branch,
    and [send] returns the exception; unless that log call raises (debug
    off, a logger that does not take [file=]): then nothing follows and
    [send] raises the logger's error. *)
Theorem send_stops_at_first_raise `{Library} smtp self msg h pre c e post :
  delivery self = Some "smtp" ->
  snd (send smtp self msg h) = (pre ++ Smtp c (Some e) :: post)%list ->
  Forall (fun ev => is_raise ev = false) pre
  /\ Forall (fun ev => is_smtp ev = false) post
  /\ (debug self = true \/ file_keyword (log self) = None ->
      post = [failure_log (debug self) e]
      /\ fst (send smtp self msg h) = Return (VExc e))
  /\ (forall te,
        debug self = false -> file_keyword (log self) = Some te ->
        post = [] /\ fst (send smtp self msg h) = Raise te).
Proof.
  intros D T.
  destruct (raise_position smtp self msg D h pre c e post T) as (p & q & _ & -> & -> & R).
  rewrite R. split; [apply opening_no_raise|].
  split; [apply Forall_forall; intros ev; apply handler_log_no_smtp|].
  destruct (handler_cases self e) as [(Ok & -> & ->) | (te & Dbg & Lg & -> & ->)].
  - split; [auto|]. intros te Dbg Lg. destruct Ok; congruence.
  - split; [intros [Dbg' | Lg']; congruence|].
    intros te' _ Lg'. replace te' with te by congruence. auto.
Qed.

(** X13.  When connecting, setting the debug level or the login raises,
    no message is submitted at all. *)
Theorem send_nothing_after_failed_opening `{Library} smtp self msg h c e :
  delivery self = Some "smtp" ->
  In (Smtp c (Some e)) (snd (send smtp self msg h)) ->
  (forall f r b, c <> sendmail f r b) ->
  c <> quit ->
  sendmails (snd (send smtp self msg h)) = [].
Proof.
  intros D Hin NS NQ.
  destruct (raise_in_trace smtp self msg D h c e Hin) as (p & q & S & -> & _).
  rewrite sendmails_app, sendmails_from_log, sendmails_cut, app_nil_l.
  apply session_split in S
    as [(-> & E) | [(-> & ->) | [(u & pw & _ & _ & -> & ->)
       | [(rs1 & r & rs2 & _ & -> & _) | (-> & _)]]]].
  - injection E as ->. reflexivity.
  - reflexivity.
  - reflexivity.
  - now destruct (NS (Email.getitem msg "From") r (as_string msg)).
  - now destruct NQ.
Qed.

(** X14.  When only [quit] raises, every recipient has been served, all
    submissions were made, and yet [send] does not return [None]: it
    returns the exception of [quit], or raises the logger's error when the
    log call of the [except] branch raises. *)
Theorem send_failed_quit_after_delivery `{Library} smtp self msg h e :
  delivery self = Some "smtp" ->
  In (Smtp quit (Some e)) (snd (send smtp self msg h)) ->
  sendmails (snd (send smtp self msg h))
  = map (fun r => (Email.getitem msg "From", r, as_string msg)) (tolist msg)
  /\ fst (send smtp self msg h) <> Return VNone
  /\ (debug self = true \/ file_keyword (log self) = None ->
      fst (send smtp self msg h) = Return (VExc e))
  /\ (forall te,
        debug self = false -> file_keyword (log self) = Some te ->
        fst (send smtp self msg h) = Raise te).
Proof.
  intros D Hin.
  destruct (raise_in_trace smtp self msg D h quit e Hin) as (p & q & S & -> & ->).
  split.
  - rewrite sendmails_app, sendmails_from_log, sendmails_cut, app_nil_l.
    apply session_split in S
      as [(_ & [=]) | [(_ & [=]) | [(u & pw & _ & _ & _ & [=])
         | [(rs1 & r & rs2 & _ & [=] & _) | (_ & ->)]]]].
    rewrite !map_app, !sendmails_app, sendmails_auth, sendmails_loop.
    simpl. now rewrite app_nil_r.
  - split; [apply handler_result_not_None|].
    destruct (handler_cases self e) as [(Ok & -> & _) | (te & Dbg & Lg & -> & _)].
    + split; [auto|]. intros te Dbg Lg. destruct Ok; congruence.
    + split; [intros [Dbg' | Lg']; congruence|].
      intros te' _ Lg'. now replace te' with te by congruence.
Qed.

(** Events that are neither log lines nor submissions are rare: what a
    predicate rejects on those two kinds, it rejects on the loop. *)
Section Elsewhere.

Context `{Library}.
Variable P : event -> bool.
Hypothesis P_log : forall f a, P (Log f a) = false.
Hypothesis P_sendmail : forall f t b o, P (Smtp (sendmail f t b) o) = false.
Variable self : TextMailer.
Variable msg : Message.

Lemma not_in_from_log : Forall (fun ev => P ev = false) (from_log self msg).
Proof. unfold from_log. destruct (debug self); repeat constructor. apply P_log. Qed.

Lemma not_in_to_log r : Forall (fun ev => P ev = false) (map ok_event (to_log self r)).
Proof. unfold to_log. destruct (debug self); repeat constructor. apply P_log. Qed.

Lemma not_in_failure_log e : P (failure_log (debug self) e) = false.
Proof. unfold failure_log. destruct (debug self); apply P_log. Qed.

Lemma not_in_handler_log e : Forall (fun ev => P ev = false) (handler_log self e).
Proof.
  destruct (handler_cases self e) as [(_ & _ & ->) | (te & _ & _ & _ & ->)];
    repeat constructor. apply not_in_failure_log.
Qed.

Lemma not_in_loop rs :
  Forall (fun ev => P ev = false) (map ok_event (flat_map (visit self msg) rs)).
Proof.
  induction rs as [|r rs IH]; simpl; [constructor|].
  rewrite map_app. apply Forall_app. split; [|exact IH].
  unfold visit. rewrite map_app. apply Forall_app. split; [apply not_in_to_log|].
  repeat constructor. apply P_sendmail.
Qed.

End Elsewhere.

Ltac elsewhere :=
  repeat first
    [ apply Forall_nil
    | apply not_in_from_log; [reflexivity]
    | apply not_in_loop; [reflexivity | reflexivity]
    | apply not_in_to_log; [reflexivity]
    | apply not_in_handler_log; [reflexivity]
    | apply Forall_app; split
    | rewrite map_app
    | apply Forall_cons;
      [first [reflexivity | apply not_in_failure_log; reflexivity]|] ].

Lemma auth_elsewhere (P : event -> bool) self :
  (forall u pw o, P (Smtp (login u pw) o) = false) ->
  Forall (fun ev => P ev = false) (map ok_event (auth_steps self)).
Proof.
  intros PL. unfold auth_steps.
  destruct (username self), (password self); repeat constructor. apply PL.
Qed.

(** X15.  When a call other than [quit] raises, [quit] is never called:
    the session is abandoned, not closed. *)
Theorem send_no_quit_after_failure `{Library} smtp self msg h c e :
  delivery self = Some "smtp" ->
  In (Smtp c (Some e)) (snd (send smtp self msg h)) ->
  c <> quit ->
  Forall (fun ev => is_quit ev = false) (snd (send smtp self msg h)).
Proof.
  intros D Hin NQ.
  destruct (raise_in_trace smtp self msg D h c e Hin) as (p & q & S & -> & _).
  pose proof (auth_elsewhere is_quit self (fun _ _ _ => eq_refl)) as A.
  apply session_split in S
    as [(-> & E) | [(-> & ->) | [(u & pw & _ & _ & -> & ->)
       | [(rs1 & r & rs2 & _ & -> & ->) | (-> & _)]]]].
  - injection E as ->. elsewhere.
  - elsewhere.
  - elsewhere.
  - elsewhere. exact A.
  - now destruct NQ.
Qed.

(** X16.  In SMTP mode [send] returns [None] only if no SMTP call
    raised, and then the last thing it did was to close the session. *)
Theorem send_success_means_no_raise `{Library} smtp self msg h :
  delivery self = Some "smtp" ->
  fst (send smtp self msg h) = Return VNone ->
  Forall (fun ev => is_raise ev = false) (snd (send smtp self msg h))
  /\ exists evs, snd (send smtp self msg h) = (evs ++ [Smtp quit None])%list.
Proof.
  intros D.
  destruct (send_cases smtp self msg D h) as [E | (p & c & q & e & S & E)];
    rewrite E; cbn [fst snd].
  - intros _. split; [apply (opening_no_raise self msg)|].
    unfold session. rewrite !app_assoc, map_app.
    eexists. rewrite app_assoc. reflexivity.
  - intros R. now apply handler_result_not_None in R.
Qed.

(** X17.  Every send in SMTP mode attempts exactly one connection, before
    any other call: to the configured host, or to 127.0.0.1 when the host
    is unset or empty, and to the configured port, if any. *)
Theorem send_connects_first `{Library} smtp self msg h :
  delivery self = Some "smtp" ->
  exists o rest,
    snd (send smtp self msg h)
    = (from_log self msg
       ++ Smtp (SMTP (Py.or_str (host self) "127.0.0.1") (port self)) o :: rest)%list
    /\ Forall (fun ev => is_connect ev = false) rest.
Proof.
  intros D.
  pose proof (auth_elsewhere is_connect self (fun _ _ _ => eq_refl)) as A.
  destruct (send_cases smtp self msg D h) as [E | (p & c & q & e & S & E)];
    rewrite E; cbn [fst snd]; clear E.
  - exists None,
      (Smtp (set_debuglevel (if debug self then 1 else 0)) None
       :: map ok_event (auth_steps self ++ flat_map (visit self msg) (tolist msg)
                        ++ [Do quit])).
    split; [reflexivity|]. elsewhere. exact A.
  - apply session_split in S
      as [(-> & E) | [(-> & ->) | [(u & pw & _ & _ & -> & ->)
         | [(rs1 & r & rs2 & _ & -> & ->) | (-> & ->)]]]].
    + injection E as ->. exists (Some e), (handler_log self e).
      split; [reflexivity|]. elsewhere.
    + exists None,
        (Smtp (set_debuglevel (if debug self then 1 else 0)) (Some e)
         :: handler_log self e).
      split; [reflexivity|]. elsewhere.
    + exists None,
        (Smtp (set_debuglevel (if debug self then 1 else 0)) None
         :: Smtp (login u pw) (Some e) :: handler_log self e).
      split; [reflexivity|]. elsewhere.
    + exists None,
        (Smtp (set_debuglevel (if debug self then 1 else 0)) None
         :: map ok_event (auth_steps self ++ flat_map (visit self msg) rs1
                          ++ to_log self r)
         ++ Smtp (sendmail (Email.getitem msg "From") r (as_string msg)) (Some e)
            :: handler_log self e).
      split; [reflexivity|]. elsewhere. exact A.
    + exists None,
        (Smtp (set_debuglevel (if debug self then 1 else 0)) None
         :: map ok_event (auth_steps self ++ flat_map (visit self msg) (tolist msg))
         ++ Smtp quit (Some e) :: handler_log self e).
      split; [reflexivity|]. elsewhere. exact A.
Qed.

(** ** What gets logged *)

Lemma flat_map_all_nil {A B} (f : A -> list B) l :
  (forall x, f x = []) -> flat_map f l = [].
Proof.
  intros F. induction l as [|x l IH]; simpl; [reflexivity|]. now rewrite F, IH.
Qed.

Section Logging.

Context `{Library}.
Variable self : TextMailer.
Variable msg : Message.

Lemma logs_app t1 t2 : logs (t1 ++ t2) = (logs t1 ++ logs t2)%list.
Proof. apply filter_app. Qed.

Lemma logs_from_log : logs (from_log self msg) = from_log self msg.
Proof. unfold from_log. now destruct (debug self). Qed.

Lemma logs_to_log r : logs (map ok_event (to_log self r)) = map ok_event (to_log self r).
Proof. unfold to_log. now destruct (debug self). Qed.

Lemma logs_auth : logs (map ok_event (auth_steps self)) = [].
Proof. unfold auth_steps. now destruct (username self), (password self). Qed.

Lemma logs_loop rs :
  logs (map ok_event (flat_map (visit self msg) rs))
  = flat_map (fun r => map ok_event (to_log self r)) rs.
Proof.
  induction rs as [|r rs IH]; simpl; [reflexivity|].
  rewrite map_app, logs_app, IH. unfold visit.
  rewrite map_app, logs_app, logs_to_log. simpl. now rewrite app_nil_r.
Qed.

Lemma logs_session :
  logs (map ok_event (session self msg))
  = flat_map (fun r => map ok_event (to_log self r)) (tolist msg).
Proof.
  unfold session. rewrite !map_app, !logs_app, logs_auth, logs_loop.
  simpl. now rewrite app_nil_r.
Qed.

Lemma logs_handler_log e : logs (handler_log self e) = handler_log self e.
Proof.
  destruct (handler_cases self e) as [(_ & _ & ->) | (te & _ & _ & _ & ->)];
    [|reflexivity].
  unfold failure_log. now destruct (debug self).
Qed.

(** With debug off the session itself logs nothing. *)
Lemma quiet_prefix p c q :
  debug self = false ->
  session self msg = (p ++ Do c :: q)%list ->
  logs (map ok_event p) = [].
Proof.
  intros Dbg S. pose proof logs_session as L.
  rewrite S, map_app, logs_app in L.
  assert (Z : flat_map (fun r => map ok_event (to_log self r)) (tolist msg) = []).
  { apply flat_map_all_nil. intros r. unfold to_log. now rewrite Dbg. }
  rewrite Z in L. now apply app_eq_nil in L.
Qed.

End Logging.

(** X18.  With debug off, a send in SMTP mode logs nothing, unless it
    returns an exception: then it has logged exactly one line, the summary
    of that exception on stderr.  (When the logger does not take [file=],
    that line is not written and [send] raises.) *)
Theorem send_quiet_without_debug `{Library} smtp self msg h :
  delivery self = Some "smtp" ->
  debug self = false ->
  logs (snd (send smtp self msg h))
  = match fst (send smtp self msg h) with
    | Return (VExc e) => [Log (Some stderr) [LStr "Emailer exception:"; LExc e]]
    | _ => []
    end.
Proof.
  intros D Dbg.
  assert (F : from_log self msg = []) by (unfold from_log; now rewrite Dbg).
  destruct (send_cases smtp self msg D h) as [E | (p & c & q & e & S & E)];
    rewrite E; cbn [fst snd]; rewrite F, app_nil_l.
  - rewrite logs_session. apply flat_map_all_nil.
    intros r. unfold to_log. now rewrite Dbg.
  - rewrite logs_app, (quiet_prefix self msg p c q Dbg S), app_nil_l.
    change (Smtp c (Some e) :: handler_log self e)
      with ([Smtp c (Some e)] ++ handler_log self e)%list.
    rewrite logs_app, logs_handler_log. simpl.
    destruct (handler_cases self e) as [(_ & -> & ->) | (te & _ & _ & -> & ->)];
      [|reflexivity].
    unfold failure_log. now rewrite Dbg.
Qed.

(** X19.  With debug on, a send in SMTP mode that returns [None] has
    logged the From line and then one To line per recipient, in the order
    of the recipient list, and nothing else. *)
Theorem send_debug_log `{Library} smtp self msg h :
  delivery self = Some "smtp" ->
  debug self = true ->
  fst (send smtp self msg h) = Return VNone ->
  logs (snd (send smtp self msg h))
  = Log None [LStr "From ="; LVal (Email.getitem msg "From")]
    :: map to_line (tolist msg).
Proof.
  intros D Dbg.
  destruct (send_cases smtp self msg D h) as [E | (p & c & q & e & S & E)];
    rewrite E; cbn [fst snd].
  - intros _. rewrite logs_app, logs_from_log, logs_session.
    unfold from_log, to_log. rewrite Dbg. simpl. f_equal.
  - intros R. now apply handler_result_not_None in R.
Qed.

(** ** The further properties on sample inputs *)

Section MoreExamples.

Import Samples.

Lemma message_closed_form_witness :
  exists msg,
    message (mailer "test" None None) None (VStr "hello") None None (Some "")
      (Some "c@z.com,") None [] = Return msg
    /\ Email.payload msg = "hello"
    /\ Email.headers msg
       = (Email.headers (Email.MIMEText_str "hello")
          ++ [("From", Some "me@x.com"); ("Subject", None);
              ("To", Some "default@x.com"); ("Cc", Some "c@z.com")])%list.
Proof.
  eexists. split; [reflexivity|].
  destruct (message_closed_form (mailer "test" None None) None (VStr "hello") None None
              (Some "") (Some "c@z.com,") None [] _ eq_refl)
    as (body & Hb & _ & Hp & Hh).
  injection Hb as <-. split; [exact (Hp eq_refl) | exact Hh].
Defined.

Lemma message_addresses_clean_witness :
  exists t, Some "b@y.com" = Some t /\ clean t.
Proof.
  apply (message_addresses_clean (mailer "test" None None) None (VStr "hello")
           (Some " a@x.com ,, b@y.com , ") None None None None []
           (Email.mkMessage
              (Email.headers (Email.MIMEText_str "hello")
               ++ [("From", Some "me@x.com"); ("Subject", None);
                   ("To", Some "a@x.com"); ("To", Some "b@y.com")])
              "hello")
           "To" (Some "b@y.com")).
  - reflexivity.
  - simpl. tauto.
  - simpl. tauto.
Defined.


Lemma built_message_recipients_witness :
  exists msg,
    message (mailer "smtp" None None) None (VStr "hello") (Some "a@x.com, b@y.com")
      None None (Some " ,a@x.com") None [] = Return msg
    /\ tolist msg = [Some "a@x.com"; Some "b@y.com"; Some "a@x.com"]
    /\ Email.getitem msg "From" = Some "me@x.com".
Proof.
  eexists. split; [reflexivity|].
  exact (built_message_recipients (mailer "smtp" None None) None (VStr "hello")
           (Some "a@x.com, b@y.com") None None (Some " ,a@x.com") None [] _ eq_refl).
Defined.

Lemma joined_addresses_round_trip_witness :
  exists msg,
    message (mailer "test" None None) None (VStr "hello") None None None
      (Some (join_with ", " ["a@x.com"; "b@y.com"; "c@z.com"])) None [] = Return msg
    /\ Email.values msg "Cc" = [Some "a@x.com"; Some "b@y.com"; Some "c@z.com"].
Proof.
  eexists. split; [reflexivity|].
  apply (joined_addresses_round_trip (mailer "test" None None) None (VStr "hello")
           None None None None [] _ ["a@x.com"; "b@y.com"; "c@z.com"]).
  - repeat constructor; discriminate.
  - reflexivity.
Defined.

Lemma render_never_bytes_witness :
  VStr "hi" <> VBytes [Byte.x68; Byte.x69].
Proof.
  apply (render_never_bytes (mailer "test" None None) (TObject streaming) []).
  reflexivity.
Defined.

Lemma render_by_name_uses_loader_witness :
  render (init one_file_loader
            (mkTextMailer None (Some "templates") None None None None (Some "test")
               None None false bl_Log))
         (TName "missing.txt") []
  = Raise (mkExn "FileNotFoundError" "templates/missing.txt").
Proof.
  apply (proj1 (render_by_name_uses_loader one_file_loader
                  (mkTextMailer None (Some "templates") None None None None (Some "test")
                     None None false bl_Log)
                  "templates" "missing.txt" [] eq_refl)).
  reflexivity.
Defined.


Lemma send_message_render_failure_witness :
  send_message accepting (mailer "smtp" None None) (Some (TObject unrenderable))
    (Some "a@x.com") None None None None [] []
  = (Raise (mkExn "TypeError" "generate() got an unexpected keyword"), []).
Proof.
  apply (send_message_render_failure accepting (mailer "smtp" None None)
           (TObject unrenderable) unrenderable (Some "a@x.com") None None None None [] []
           (mkExn "KeyError" "name")); reflexivity.
Defined.

Lemma send_message_delivers_witness :
  exists msg,
    message (mailer "smtp" None None) None (VStr "hello") (Some "a@x.com") None None
      (Some "b@y.com") None [] = Return msg
    /\ sendmails
         (snd (send_message accepting (mailer "smtp" None None) None (Some "a@x.com")
                 None None (Some "b@y.com") None [("text", VStr "hello")] []))
       = [(Some "me@x.com", Some "a@x.com", as_string msg);
          (Some "me@x.com", Some "b@y.com", as_string msg)].
Proof.
  exact (send_message_delivers accepting (mailer "smtp" None None) None (Some "a@x.com")
           None None (Some "b@y.com") None [("text", VStr "hello")] [] _
           eq_refl eq_refl).
Defined.

Lemma send_unknown_mode_witness :
  send unreachable (mailer "queue" None None) letter [] = (Return VNone, []).
Proof. apply send_unknown_mode; discriminate. Defined.

Lemma send_stops_at_first_raise_witness :
  [Log (Some stderr)
     [LStr "Emailer exception:"; LExc (mkExn "SMTPAuthenticationError" "535")]]
  = [failure_log false (mkExn "SMTPAuthenticationError" "535")]
  /\ fst (send rejecting_login
            (with_log recording (mailer "smtp" (Some "user") (Some "secret"))) letter [])
     = Return (VExc (mkExn "SMTPAuthenticationError" "535")).
Proof.
  apply (proj1 (proj2 (proj2
           (send_stops_at_first_raise rejecting_login
              (with_log recording (mailer "smtp" (Some "user") (Some "secret"))) letter []
              [Smtp (SMTP "mail.x.com" None) None; Smtp (set_debuglevel 0) None]
              (login "user" "secret") (mkExn "SMTPAuthenticationError" "535")
              [Log (Some stderr)
                 [LStr "Emailer exception:";
                  LExc (mkExn "SMTPAuthenticationError" "535")]]
              eq_refl eq_refl)))).
  right. reflexivity.
Defined.

Lemma send_nothing_after_failed_opening_witness :
  sendmails
    (snd (send rejecting_login (mailer "smtp" (Some "user") (Some "secret")) letter []))
  = [].
Proof.
  apply (send_nothing_after_failed_opening rejecting_login
           (mailer "smtp" (Some "user") (Some "secret")) letter []
           (login "user" "secret") (mkExn "SMTPAuthenticationError" "535")).
  - reflexivity.
  - vm_compute. tauto.
  - discriminate.
  - discriminate.
Defined.

Lemma send_failed_quit_after_delivery_witness :
  sendmails (snd (send failing_quit (mailer "smtp" None None) letter []))
  = map (fun r => (Email.getitem letter "From", r, as_string letter)) (tolist letter)
  /\ fst (send failing_quit (mailer "smtp" None None) letter []) <> Return VNone.
Proof.
  destruct (send_failed_quit_after_delivery failing_quit (mailer "smtp" None None)
              letter []
              (mkExn "SMTPServerDisconnected" "Connection unexpectedly closed") eq_refl)
    as (Sent & NotNone & _).
  - vm_compute. tauto.
  - split; [exact Sent | exact NotNone].
Defined.

Lemma send_no_quit_after_failure_witness :
  Forall (fun ev => is_quit ev = false)
    (snd (send (refusing "b@y.com") (mailer "smtp" None None) letter [])).
Proof.
  apply (send_no_quit_after_failure (refusing "b@y.com") (mailer "smtp" None None)
           letter [] (sendmail (Some "me@x.com") (Some "b@y.com") (as_string letter))
           (refused "b@y.com")).
  - reflexivity.
  - vm_compute. tauto.
  - discriminate.
Defined.

Lemma send_success_means_no_raise_witness :
  exists evs,
    snd (send accepting (mailer "smtp" None None) letter [])
    = (evs ++ [Smtp quit None])%list.
Proof.
  exact (proj2 (send_success_means_no_raise accepting (mailer "smtp" None None) letter []
                  eq_refl eq_refl)).
Defined.

Lemma send_connects_first_witness :
  exists o rest,
    snd (send unreachable verbose letter [])
    = (from_log verbose letter ++ Smtp (SMTP "127.0.0.1" (Some 2525%Z)) o :: rest)%list
    /\ Forall (fun ev => is_connect ev = false) rest.
Proof.
  exact (send_connects_first unreachable verbose letter [] eq_refl).
Defined.

Lemma send_quiet_without_debug_witness :
  logs (snd (send accepting (mailer "smtp" None None) letter [])) = [].
Proof.
  exact (send_quiet_without_debug accepting (mailer "smtp" None None) letter []
           eq_refl eq_refl).
Defined.

Lemma send_debug_log_witness :
  logs (snd (send accepting verbose letter []))
  = [Log None [LStr "From ="; LVal (Some "me@x.com")];
     Log None [LStr "To ="; LVal (Some "a@x.com")];
     Log None [LStr "To ="; LVal (Some "b@y.com")];
     Log None [LStr "To ="; LVal (Some "a@x.com")]].
Proof.
  exact (send_debug_log accepting verbose letter [] eq_refl eq_refl eq_refl).
Defined.

End MoreExamples.
